(** * astroquery.cadc.core: a shallow embedding and its checked properties

    The development follows [src/astroquery/cadc/core.py].  Python text is
    modelled as [string] (code points below 256), a float by the text that
    [str.format] renders for it, the function attribute
    [get_access_url.caps] as a [gmap string string] held in the state of
    the process, and every call that leaves the module (HTTP, DataLink,
    file retrieval, coordinate parsing, XML parsing) as a field of an
    environment record.  Code that raises returns [Raise e]; code that
    talks to the network appends the request to the list [sent]. *)

From Stdlib Require Import Ascii String List Arith Lia.
From stdpp Require Import base option list strings gmap.

Local Set Warnings "-register-all".

(** ** Python text primitives *)

Module Py.

Definition truthy (s : string) : bool :=
  match s with "" => false | _ => true end.

Definition truthy_opt (o : option string) : bool :=
  match o with Some s => truthy s | None => false end.

Fixpoint startswith (p s : string) : bool :=
  match p, s with
  | "", _ => true
  | String a p', String b s' => if Ascii.eqb a b then startswith p' s' else false
  | String _ _, "" => false
  end.

(** [needle in hay] *)
Fixpoint contains (needle hay : string) : bool :=
  startswith needle hay
  || match hay with
     | "" => false
     | String _ hay' => contains needle hay'
     end.

Definition Contains (needle hay : string) : Prop :=
  ∃ pre post, hay = pre +:+ needle +:+ post.

Definition EndsWith (suffix s : string) : Prop :=
  ∃ pre, s = pre +:+ suffix.

Fixpoint last_char (s : string) : option ascii :=
  match s with
  | "" => None
  | String a "" => Some a
  | String _ s' => last_char s'
  end.

(** Line boundaries of [str.splitlines] among the code points below 256. *)
Definition is_linebreak (c : ascii) : bool :=
  match nat_of_ascii c with
  | 10 | 11 | 12 | 13 | 28 | 29 | 30 | 133 => true
  | _ => false
  end.

Fixpoint splitlines_go (cur : string) (s : string) : list string :=
  match s with
  | "" => match cur with "" => [] | _ => [String.rev cur] end
  | String c s' =>
      if is_linebreak c then
        match nat_of_ascii c, s' with
        | 13, String c2 s'' =>
            if Nat.eqb (nat_of_ascii c2) 10
            then String.rev cur :: splitlines_go "" s''
            else String.rev cur :: splitlines_go "" s'
        | _, _ => String.rev cur :: splitlines_go "" s'
        end
      else splitlines_go (String c cur) s'
  end.

Definition splitlines (s : string) : list string := splitlines_go "" s.

(** [s.split(sep)] for a one-character separator. *)
Fixpoint split_go (sep : ascii) (cur : string) (s : string) : list string :=
  match s with
  | "" => [String.rev cur]
  | String c s' =>
      if Ascii.eqb c sep then String.rev cur :: split_go sep "" s'
      else split_go sep (String c cur) s'
  end.

Definition split (sep : ascii) (s : string) : list string := split_go sep "" s.

(** [str.isspace] among the code points below 256. *)
Definition is_space (c : ascii) : bool :=
  match nat_of_ascii c with
  | 9 | 10 | 11 | 12 | 13 | 28 | 29 | 30 | 31 | 32 | 133 | 160 => true
  | _ => false
  end.

Fixpoint lstrip (s : string) : string :=
  match s with
  | "" => ""
  | String c s' => if is_space c then lstrip s' else s
  end.

Definition strip (s : string) : string :=
  String.rev (lstrip (String.rev (lstrip s))).

(** ["sep".join(parts)] *)
Fixpoint join (sep : string) (parts : list string) : string :=
  match parts with
  | [] => ""
  | [p] => p
  | p :: ps => p +:+ sep +:+ join sep ps
  end.

(** [range(0, stop, step)] for a positive step. *)
Definition range0 (stop step : nat) : list nat :=
  map (λ k, k * step) (seq 0 ((stop + step - 1) / step)).

(** [l[lo:hi]] for indices that are not negative. *)
Definition slice {A} (l : list A) (lo hi : nat) : list A :=
  take (hi - lo) (drop lo l).

End Py.

(** ** Exceptions and results *)

Inductive exn : Type :=
| AttributeError (msg : string)
| RuntimeError (msg : string)
| ValueError (msg : string)
| KeyError (key : string)
| RequestsHTTPError (url : string) (status : nat)   (* requests.exceptions.HTTPError *)
| UrllibHTTPError (url : string) (msg : string)     (* urllib.error.HTTPError *)
| ConnectionError (msg : string)
| ExternalError (origin msg : string).              (* raised inside astropy, pyvo, bs4 *)

Inductive result (A : Type) : Type :=
| Ok (a : A)
| Raise (e : exn).
Arguments Ok {A} a.
Arguments Raise {A} e.

Definition is_ok {A} (r : result A) : bool :=
  match r with Ok _ => true | Raise _ => false end.

(** What a call into astropy or pyvo gives back: a value, or a failure of
    that library. *)
Inductive outcome (A : Type) : Type :=
| Returned (a : A)
| Failed (msg : string).
Arguments Returned {A} a.
Arguments Failed {A} msg.

(** ** The state of the process *)

Inductive request : Type :=
| GetRegistry (url : string)                       (* requests.get(conf.CADC_REGISTRY_URL) *)
| GetCapabilities (url : string)                   (* requests.get(caps_url) *)
| DataLinkBatch (url : string)                     (* DatalinkResults.from_result_url(url) *)
| DataLinkGet (url : string) (pid : string)        (* self._request('GET', ..., params={'ID': pid}) *)
| RetrieveFile (url : string).                     (* FileContainer(url).get_fits() *)

Record World : Type := mkWorld {
  caps : gmap string string;          (* get_access_url.caps *)
  data_link_url_attr : option string; (* self._data_link_url, when set *)
  sent : list request;                (* requests issued so far, oldest first *)
  debug_log : list string;            (* logger.debug messages, oldest first *)
}.

Definition initial_world : World :=
  {| caps := ∅; data_link_url_attr := None; sent := []; debug_log := [] |}.

(** A computation reads and updates the state of the process and either
    returns or raises. *)
Definition M (A : Type) : Type := World → result A * World.

Definition ret {A} (a : A) : M A := λ w, (Ok a, w).
Definition raise {A} (e : exn) : M A := λ w, (Raise e, w).
Definition bind {A B} (m : M A) (k : A → M B) : M B :=
  λ w, match m w with
       | (Ok a, w') => k a w'
       | (Raise e, w') => (Raise e, w')
       end.
Definition lift {A} (r : result A) : M A := λ w, (r, w).

(** A call into the library [origin]; its failure is raised as it is. *)
Definition external {A} (origin : string) (o : outcome A) : M A :=
  match o with
  | Returned a => ret a
  | Failed msg => raise (ExternalError origin msg)
  end.

Notation "'let*' x ':=' m 'in' k" := (bind m (λ x, k))
  (at level 10, x name, m at level 100, k at level 200).
Notation "m1 ';;;' m2" := (bind m1 (λ _, m2))
  (at level 100, m2 at level 200, right associativity).

(** [try: m except <handled>: handler] *)
Definition try_except {A} (m : M A) (handled : exn → bool) (handler : exn → M A) : M A :=
  λ w, match m w with
       | (Ok a, w') => (Ok a, w')
       | (Raise e, w') => if handled e then handler e w' else (Raise e, w')
       end.

(** [for x in l: s = body(x, s)] *)
Fixpoint for_each {A S} (l : list A) (body : A → S → M S) (s : S) : M S :=
  match l with
  | [] => ret s
  | x :: l' => let* s' := body x s in for_each l' body s'
  end.

Definition logger_debug (msg : string) : M unit :=
  λ w, (Ok (), {| caps := caps w; data_link_url_attr := data_link_url_attr w;
                  sent := sent w; debug_log := debug_log w ++ [msg] |}).

Definition record_request (r : request) : M unit :=
  λ w, (Ok (), {| caps := caps w; data_link_url_attr := data_link_url_attr w;
                  sent := sent w ++ [r]; debug_log := debug_log w |}).

Definition get_caps : M (gmap string string) := λ w, (Ok (caps w), w).

Definition caps_setitem (k v : string) : M unit :=
  λ w, (Ok (), {| caps := <[k:=v]> (caps w); data_link_url_attr := data_link_url_attr w;
                  sent := sent w; debug_log := debug_log w |}).

Definition get_data_link_url_attr : M (option string) :=
  λ w, (Ok (data_link_url_attr w), w).

Definition set_data_link_url_attr (u : string) : M unit :=
  λ w, (Ok (), {| caps := caps w; data_link_url_attr := Some u;
                  sent := sent w; debug_log := debug_log w |}).

(** ** Values exchanged with the collaborators *)

(** The [coordinates] argument: "str or astropy.coordinates". *)
Inductive coordinates : Type :=
| CoordString (s : string)
| CoordObject (frame lon lat : string).

(** [commons.parse_coordinates(c).fk5]: right ascension and declination in
    degrees, each float given by the text [str.format] renders for it. *)
Record SkyCoord : Type := mkSkyCoord {
  ra_degree : string;
  dec_degree : string;
}.

(** The [radius] argument: a float (the default), a str, or a Quantity. *)
Inductive radius_arg : Type :=
| RadiusFloat (text : string)
| RadiusStr (s : string)
| RadiusQuantity (value unit : string).

(** ['{}'.format(radius)] *)
Definition format_radius (r : radius_arg) : string :=
  match r with
  | RadiusFloat t => t
  | RadiusStr s => s
  | RadiusQuantity v u => v +:+ " " +:+ u
  end.

Inductive http_reply : Type :=
| HttpReply (status : nat) (text : string)
| HttpNoReply (msg : string).

(** A row of a DataLink links table. *)
Record link_row : Type := mkLinkRow {
  semantics : string;
  access_url : string;
}.

(** A service descriptor of a DataLink response. *)
Record service_def : Type := mkServiceDef {
  sd_semantics : string;
  sd_access_url : string;
  sd_input_params : list (string * string);
}.

Inductive dal_reply : Type :=
| DalResults (records : list service_def)
| DalError (msg : string).

Inductive file_reply : Type :=
| FileFits (hdulist : string)
| FileHTTPError (msg : string)
| FileOtherError (msg : string).

(** The tree BeautifulSoup builds; html5lib lower-cases the names of tags
    and attributes. *)
Inductive node : Type :=
| Tag (name : string) (attrs : list (string * string)) (children : list node)
| NavigableString (s : string).

(** Modelled from the spec: the collaborators, which the module calls but
    does not define ([commons.parse_coordinates], [commons.FileContainer],
    [requests], pyvo's DataLink client, BeautifulSoup, astropy's VOTable
    parser, [urllib]).  Each is a function of its arguments and, for the
    network, of the requests issued before. *)
Record Env : Type := mkEnv {
  CADC_REGISTRY_URL : string;          (* conf.CADC_REGISTRY_URL *)
  CADCDATALINK_SERVICE_URI : string;   (* conf.CADCDATLINK_SERVICE_URI *)
  (** Modelled from the spec: the coordinate-normalization utility
      "accepts flexible coordinate input, returns a fixed-frame
      representation".  The field is what the utility answers at the time
      of the call: it may reject its input, and for the name of an object
      its answer is the one of the name service it asks over the network. *)
  parse_coordinates : coordinates → outcome SkyCoord;
  (** The answer to [requests.get(url)] or [self._request('GET', url)],
      given the requests issued before it. *)
  http : list request → string → http_reply;
  (** The answer to [DatalinkResults.from_result_url(url)]. *)
  datalink : list request → string → dal_reply;
  (** Modelled from the spec: the file-retrieval utility "accepts a URL,
      returns a locally materialized data object". *)
  fetch_fits : list request → string → file_reply;
  parse_html : string → node;                        (* BeautifulSoup(text, "html5lib") *)
  parse_single_table : string → outcome (list link_row);
  quote_plus : string → string;                      (* urllib.parse.quote_plus *)
}.

(** ** Python dictionaries with insertion order *)

Section Dict.
Context {K V : Type} `{EqDecision K}.

Fixpoint dict_set (d : list (K * V)) (k : K) (v : V) : list (K * V) :=
  match d with
  | [] => [(k, v)]
  | (k', v') :: d' =>
      if decide (k' = k) then (k, v) :: d' else (k', v') :: dict_set d' k v
  end.

Fixpoint dict_get (d : list (K * V)) (k : K) : option V :=
  match d with
  | [] => None
  | (k', v') :: d' => if decide (k' = k) then Some v' else dict_get d' k
  end.

(** [d.update(other)] *)
Definition dict_update (d other : list (K * V)) : list (K * V) :=
  fold_left (λ acc kv, dict_set acc kv.1 kv.2) other d.
End Dict.

(** [template.format(a, b, ...)] with positional [{}] fields.  In Python a
    field without an argument raises IndexError; every call in this module
    passes as many arguments as its template has fields. *)
Fixpoint format (template : string) (args : list string) : string :=
  match template with
  | "" => ""
  | String c t' =>
      match t' with
      | String c2 t'' =>
          if Ascii.eqb c "{" && Ascii.eqb c2 "}" then
            match args with
            | a :: args' =>
                match t'' with
                | "" => a
                | _ => a +:+ format t'' args'
                end
            | [] => format t'' []
            end
          else String c (format t' args)
      | "" => String c ""
      end
  end.

(** ** The query builder *)

(** The payload has the builtin function [format] as its first key, since
    the source writes [{format: 'VOTable'}] without quotes. *)
Inductive payload_key : Type :=
| KBuiltinFormat
| KStr (s : string).

Global Instance payload_key_eq_dec : EqDecision payload_key.
Proof. solve_decision. Defined.

Abbreviation payload := (list (payload_key * string)).

(** [**kwargs] of [_args_to_payload]; [kw_collection] is [None] when the
    key is absent and [Some None] when it is passed as [None]. *)
Record Kwargs : Type := mkKwargs {
  kw_coordinates : coordinates;
  kw_radius : radius_arg;
  kw_collection : option (option string);
}.

Definition query_template : string :=
  "SELECT * from caom2.Observation o join caom2.Plane p " +:+
  "ON o.obsID=p.obsID " +:+
  "WHERE INTERSECTS( " +:+
  "CIRCLE('ICRS', {}, {}, {}), position_bounds) = 1 AND " +:+
  "(quality_flag IS NULL OR quality_flag != 'junk')".

(** ['collection' in kwargs and kwargs['collection']] *)
Definition collection_given (kwargs : Kwargs) : option string :=
  match kw_collection kwargs with
  | Some (Some c) => if Py.truthy c then Some c else None
  | _ => None
  end.

Definition getitem (p : payload) (k : string) : M string :=
  match dict_get p (KStr k) with
  | Some v => ret v
  | None => raise (KeyError k)
  end.

Section QueryBuilder.
Context (env : Env).

Definition _args_to_payload (kwargs : Kwargs) : M payload :=
  let* coordinates := external "astropy" (parse_coordinates env (kw_coordinates kwargs)) in
  let radius := kw_radius kwargs in
  let payload := [(KBuiltinFormat, "VOTable")] in
  let payload :=
    dict_set payload (KStr "query")
      (format query_template
         [ra_degree coordinates; dec_degree coordinates; format_radius radius]) in
  match collection_given kwargs with
  | Some collection =>
      let* query := getitem payload "query" in
      ret (dict_set payload (KStr "query")
             (format "{} AND collection='{}'" [query; collection]))
  | None => ret payload
  end.
End QueryBuilder.

(** ** The BeautifulSoup tree *)

Module Soup.

(** All nodes below [n], in document order. *)
Fixpoint descendants (n : node) : list node :=
  match n with
  | Tag _ _ children =>
      (fix go (cs : list node) : list node :=
         match cs with
         | [] => []
         | c :: cs' => c :: descendants c ++ go cs'
         end) children
  | NavigableString _ => []
  end.

Definition is_tag (name : string) (n : node) : bool :=
  match n with
  | Tag nm _ _ => String.eqb nm name
  | NavigableString _ => false
  end.

(** [n.find_all(name)] *)
Definition find_all (name : string) (n : node) : list node :=
  List.filter (is_tag name) (descendants n).

(** [n.find(name)], which is also what the attribute access [n.name] does. *)
Definition find (name : string) (n : node) : option node :=
  head (find_all name n).

(** [n.get(attr, None)] *)
Definition get (n : node) (attr : string) : option string :=
  match n with
  | Tag _ attrs _ => dict_get attrs attr
  | NavigableString _ => None
  end.

(** [n.text] *)
Fixpoint text (n : node) : string :=
  match n with
  | NavigableString s => s
  | Tag _ _ children =>
      (fix go (cs : list node) : string :=
         match cs with
         | [] => ""
         | c :: cs' => text c +:+ go cs'
         end) children
  end.

End Soup.

(** ** The registry cache and the capability resolver *)

Definition str_exn (e : exn) : string :=
  match e with
  | AttributeError m | RuntimeError m | ValueError m | ConnectionError m => m
  | KeyError k => "'" +:+ k +:+ "'"
  | RequestsHTTPError url _ => "HTTP error for url: " +:+ url
  | UrllibHTTPError url m => m
  | ExternalError _ m => m
  end.

Definition is_requests_http_error (e : exn) : bool :=
  match e with RequestsHTTPError _ _ => true | _ => false end.

(** [i.accessurl.text]; [i.accessurl] is [None] when the interface has no
    such element. *)
Definition accessurl_text (i : node) : result string :=
  match Soup.find "accessurl" i with
  | Some a => Ok (Soup.text a)
  | None => Raise (AttributeError "'NoneType' object has no attribute 'text'")
  end.

(** The test of one interface in the inner loop.  [hasattr(i,
    'securitymethod')] holds for every tag, and a tag is never falsy, so
    [not sm] says that the interface has no securitymethod element. *)
Definition anonymous_or_cookie (i : node) : bool :=
  match Soup.find "securitymethod" i with
  | None => true
  | Some sm =>
      match Soup.get sm "standardid" with
      | None => true
      | Some v => String.eqb v "ivo://ivoa.net/sso#cookie"
      end
  end.

(** The inner [for i in cap.find_all('interface')]: [None] when the loop
    ends without a [return]. *)
Fixpoint select_interface (interfaces : list node) : option (result string) :=
  match interfaces with
  | [] => None
  | i :: rest =>
      if anonymous_or_cookie i then Some (accessurl_text i)
      else select_interface rest
  end.

(** The outer [for cap in soup.find_all('capability')]. *)
Fixpoint select_capability (capabilities : list node) (capability : option string)
  : option (result string) :=
  match capabilities with
  | [] => None
  | cap :: rest =>
      if bool_decide (Soup.get cap "standardid" = capability) then
        match Soup.find_all "interface" cap with
        | [i] => Some (accessurl_text i)
        | interfaces =>
            match select_interface interfaces with
            | Some r => Some r
            | None => select_capability rest capability
            end
        end
      else select_capability rest capability
  end.

Definition format_opt (o : option string) : string :=
  match o with Some s => s | None => "None" end.

(** Lines 770-782: the search of the parsed capabilities document. *)
Definition resolve_capability (soup : node) (capability : option string) : result string :=
  match select_capability (Soup.find_all "capability" soup) capability with
  | Some r => r
  | None =>
      Raise (RuntimeError
               (format ("ERROR - capabilitiy {} not found or not working with " +:+
                        "anonymous or cookie access") [format_opt capability]))
  end.

(** The statuses for which [raise_for_status] raises. *)
Definition is_http_error (status : nat) : bool :=
  Nat.leb 400 status && Nat.ltb status 600.
Global Arguments is_http_error : simpl never.

Section Resolver.
Context (env : Env).

(** [requests.get(url)], recorded as the request [mk url]. *)
Definition requests_get (mk : string → request) (url : string) : M (nat * string) :=
  λ w,
    let reply := http env (sent w) url in
    match record_request (mk url) w with
    | (_, w') =>
        match reply with
        | HttpReply status text => (Ok (status, text), w')
        | HttpNoReply msg => (Raise (ConnectionError msg), w')
        end
    end.

(** [response.raise_for_status()] *)
Definition raise_for_status (url : string) (response : nat * string) : M unit :=
  if is_http_error response.1
  then raise (RequestsHTTPError url response.1)
  else ret ().

(** The body of [for line in response.text.splitlines()]. *)
Definition registry_line (line : string) (_ : unit) : M unit :=
  if Nat.ltb 0 (String.length line) && negb (Py.startswith "#" line) then
    match Py.split "=" line with
    | [service_id; capabilies_url] =>
        caps_setitem (Py.strip service_id) (Py.strip capabilies_url)
    | [] | [_] => raise (ValueError "not enough values to unpack (expected 2, got 1)")
    | _ => raise (ValueError "too many values to unpack (expected 2)")
    end
  else ret ().

(** Lines 737-749: fetch the registry when the cache is empty. *)
Definition load_registry : M unit :=
  let* cache := get_caps in
  if bool_decide (cache = ∅) then
    let* response :=
      try_except
        (let* response := requests_get GetRegistry (CADC_REGISTRY_URL env) in
         raise_for_status (CADC_REGISTRY_URL env) response ;;;
         ret response)
        is_requests_http_error
        (λ err,
           logger_debug (format "ERROR getting the CADC registry: {}" [str_exn err]) ;;;
           raise err) in
    for_each (Py.splitlines response.2) registry_line ()
  else ret ().

(** Lines 730-761: either the value returned early ([inl]) or the URL of
    the capabilities document to fetch ([inr]). *)
Definition locate_capabilities (service : string) (capability : option string)
  : M (string + string) :=
  if Py.startswith "http" service then
    if negb (Py.truthy_opt capability) then ret (inl service)
    else ret (inr service)
  else
    load_registry ;;;
    let service_uri :=
      if negb (Py.startswith "ivo" service)
      then format "ivo://cadc.nrc.ca/{}" [service]
      else service in
    let* cache := get_caps in
    match cache !! service_uri with
    | None =>
        raise (AttributeError
                 (format "Cannot find the capabilities of service {}" [service]))
    | Some caps_url =>
        if negb (Py.truthy_opt capability) then ret (inl caps_url)
        else ret (inr caps_url)
    end.

(** Lines 762-768. *)
Definition fetch_capabilities (caps_url : string) : M (nat * string) :=
  try_except
    (let* response2 := requests_get GetCapabilities caps_url in
     raise_for_status caps_url response2 ;;;
     ret response2)
    (λ _, true)
    (λ e,
       logger_debug (format "ERROR getting the service capabilities: {}" [str_exn e]) ;;;
       raise e).

Definition get_access_url (service : string) (capability : option string) : M string :=
  let* located := locate_capabilities service capability in
  match located with
  | inl url => ret url
  | inr caps_url =>
      let* response2 := fetch_capabilities caps_url in
      lift (resolve_capability (parse_html env response2.2) capability)
  end.
End Resolver.

(** ** Query results *)

(** A result table: its columns in order, each with the cells of its rows. *)
Inductive query_result : Type :=
| QueryNone
| QueryTable (columns : list (string * list string)).

(** [len(table)] *)
Definition table_len (columns : list (string * list string)) : nat :=
  match columns with
  | [] => 0
  | (_, cells) :: _ => length cells
  end.

(** [len(query_result)] *)
Definition query_result_len (q : query_result) : nat :=
  match q with
  | QueryNone => 0
  | QueryTable columns => table_len columns
  end.

(** The truth value [if not query_result] tests. *)
Definition query_result_truthy (q : query_result) : bool :=
  match q with
  | QueryNone => false
  | QueryTable columns => Nat.ltb 0 (table_len columns)
  end.

(** [query_result[name]]; [None] stands for the KeyError. *)
Definition column (q : query_result) (name : string) : option (list string) :=
  match q with
  | QueryNone => None
  | QueryTable columns => dict_get columns name
  end.

(** ** The DataLink resolver *)

(** The generator [chunks] local to [get_image_list]. *)
Definition chunks {A} (obj_list : list A) (chunk_len : nat) : list (list A) :=
  map (λ idx, Py.slice obj_list idx (idx + chunk_len))
      (Py.range0 (length obj_list) chunk_len).

(** [datalink.bysemantics(s)] *)
Definition bysemantics (s : string) (records : list service_def) : list service_def :=
  List.filter (λ r, String.eqb (sd_semantics r) s) records.

(** The loop [for row in tb.array] of [get_data_urls], applied to the
    list [result] built so far. *)
Definition append_access_urls (include_auxiliaries : bool) (tb : list link_row)
    (result : list string) : list string :=
  fold_left
    (λ result row,
       if String.eqb (semantics row) "#this" then result ++ [access_url row]
       else if Py.truthy (access_url row) && include_auxiliaries
            then result ++ [access_url row]
            else result)
    tb result.

Definition is_GetRegistry (r : request) : bool :=
  match r with GetRegistry _ => true | _ => false end.

(** The number of times the registry feed was requested. *)
Definition registry_fetches (w : World) : nat :=
  length (List.filter is_GetRegistry (sent w)).

Section Cadc.
Context (env : Env).

(** [urlencode(query)] *)
Definition urlencode (query : list (string * string)) : string :=
  Py.join "&" (map (λ kv, quote_plus env kv.1 +:+ "=" +:+ quote_plus env kv.2) query).

(** [urlencode(query, True)]: one [k=v] per element of a sequence value. *)
Definition urlencode_doseq (query : list (string * list string)) : string :=
  Py.join "&"
    (flat_map (λ kv, map (λ v, quote_plus env kv.1 +:+ "=" +:+ quote_plus env v) kv.2)
              query).

(** The property [data_link_url]. *)
Definition data_link_url : M string :=
  let* attr := get_data_link_url_attr in
  match attr with
  | Some url => ret url
  | None =>
      let* url := get_access_url env (CADCDATALINK_SERVICE_URI env)
                    (Some "ivo://ivoa.net/std/DataLink#links-1.0") in
      set_data_link_url_attr url ;;;
      ret url
  end.

(** [DatalinkResults.from_result_url(url)] *)
Definition from_result_url (url : string) : M (list service_def) :=
  λ w,
    let reply := datalink env (sent w) url in
    match record_request (DataLinkBatch url) w with
    | (_, w') =>
        match reply with
        | DalResults records => (Ok records, w')
        | DalError msg => (Raise (ExternalError "pyvo" msg), w')
        end
    end.

(** The body of [for service_def in datalink.bysemantics('#cutout')]. *)
Definition cutout_url (cutout_params : list (string * string))
    (result : list string) (service_def : service_def) : list string :=
  let access_url := sd_access_url service_def in
  if Py.contains "/sync" access_url then
    let service_params := sd_input_params service_def in
    let input_params :=
      fold_left
        (λ d param,
           if bool_decide (param.1 ∈ ["ID"; "RUNID"]) then dict_set d param.1 param.2
           else d)
        service_params [] in
    let input_params := dict_update input_params cutout_params in
    result ++ [format "{}?{}" [access_url; urlencode input_params]]
  else result.

Definition get_image_list (query_result : query_result) (coordinates : coordinates)
    (radius : radius_arg) : M (list string) :=
  if negb (query_result_truthy query_result) then
    raise (AttributeError "Missing query_result argument")
  else
    let n_pids := 20 in
    let* parsed_coordinates := external "astropy" (parse_coordinates env coordinates) in
    let ra := ra_degree parsed_coordinates in
    let dec := dec_degree parsed_coordinates in
    let cutout_params :=
      [("POS", format "CIRCLE {} {} {}" [ra; dec; format_radius radius])] in
    match column query_result "caomPublisherID" with
    | None =>
        raise (AttributeError "caomPublisherID column missing from query_result argument")
    | Some publisher_ids =>
        for_each (chunks publisher_ids n_pids)
          (λ pid_sublist result,
             let* base := data_link_url in
             let* datalink :=
               from_result_url
                 (format "{}?{}" [base; urlencode_doseq [("ID", pid_sublist)]]) in
             ret (fold_left (cutout_url cutout_params)
                            (bysemantics "#cutout" datalink) result))
          []
    end.

(** [self._request('GET', url, params={'ID': pid})] *)
Definition _request (url pid : string) : M (nat * string) :=
  let target := format "{}?{}" [url; urlencode [("ID", pid)]] in
  requests_get env (λ _, DataLinkGet url pid) target.

Definition get_data_urls (query_result : query_result) (include_auxiliaries : bool)
  : M (list string) :=
  if negb (query_result_truthy query_result) then
    raise (AttributeError "Missing metadata argument")
  else
    match column query_result "publisherID" with
    | None =>
        raise (AttributeError "caomPublisherID column missing from query_result argument")
    | Some publisher_ids =>
        for_each publisher_ids
          (λ pid result,
             let* url := data_link_url in
             let* response := _request url pid in
             raise_for_status url response ;;;
             let* tb := external "astropy" (parse_single_table env response.2) in
             ret (append_access_urls include_auxiliaries tb result))
          []
    end.

(** ** Bulk image download *)

(** [run_query]: its body is a docstring and comments, so it returns
    [None]. *)
Definition run_query (query operation : string) : M (option query_result) :=
  ret None.

(** [response.get_results()] *)
Definition get_results (response : option query_result) : M query_result :=
  match response with
  | Some r => ret r
  | None => raise (AttributeError "'NoneType' object has no attribute 'get_results'")
  end.

(** [obj.get_fits()] for [obj = commons.FileContainer(url, ...)]; building
    the container retrieves nothing.  Each call is recorded; the download
    behind it goes through astropy's cache, so that the file of a URL
    retrieved before need not travel again. *)
Definition get_fits (url : string) : M string :=
  λ w,
    let reply := fetch_fits env (sent w) url in
    match record_request (RetrieveFile url) w with
    | (_, w') =>
        match reply with
        | FileFits hdulist => (Ok hdulist, w')
        | FileHTTPError msg => (Raise (UrllibHTTPError url msg), w')
        | FileOtherError msg => (Raise (ExternalError "astropy" msg), w')
        end
    end.

(** A loop that appends to a list created before a [try]: when the body
    raises, the list keeps what was appended before. *)
Fixpoint for_each_mut {A S} (l : list A) (body : A → S → M S) (s : S)
  : World → (S * option exn) * World :=
  match l with
  | [] => λ w, ((s, None), w)
  | x :: l' =>
      λ w, match body x s w with
           | (Ok s', w') => for_each_mut l' body s' w'
           | (Raise e, w') => ((s, Some e), w')
           end
  end.

(** Lines 321-333 of [get_images].  A [FileContainer] is given by its URL;
    [show_progress] only tells it whether to draw a progress bar. *)
Definition retrieve_images (images_urls : list string) (show_progress : bool)
  : M (list string) :=
  let readable_objects := images_urls in
  λ w,
    match for_each_mut readable_objects
            (λ obj images, let* hdulist := get_fits obj in ret (images ++ [hdulist]))
            [] w with
    | ((images, None), w') => (Ok images, w')
    | ((images, Some err), w') =>
        match err with
        | UrllibHTTPError url _ =>
            (logger_debug
               (format "{} - Problem retrieving the file: {}" [str_exn err; url]) ;;;
             ret images) w'
        | _ => (Raise err, w')
        end
    end.

Definition get_images (coordinates : coordinates) (radius : radius_arg)
    (collection : option string) (get_query_payload : bool) (show_progress : bool)
  : M (payload + list string) :=
  let* request_payload :=
    _args_to_payload env
      {| kw_coordinates := coordinates; kw_radius := radius;
         kw_collection := Some collection |} in
  let* q := getitem request_payload "query" in
  let request_payload :=
    dict_set request_payload (KStr "query") (q +:+ " AND (dataProductType = 'image')") in
  if get_query_payload then ret (inl request_payload)
  else
    let* q := getitem request_payload "query" in
    let query := q +:+ " AND (dataProductType = 'image')" in
    let* response := run_query query "sync" in
    let* query_result := get_results response in
    (if query_result_truthy query_result && Nat.eqb (query_result_len query_result) 2000
     then logger_debug
            "Synchronous query results capped at 2000 results - results may be truncated"
     else ret ()) ;;;
    let* images_urls := get_image_list query_result coordinates radius in
    let* images := retrieve_images images_urls show_progress in
    ret (inr images).
End Cadc.

(** ** A concrete environment

    Used to run the model: a registry feed, a capabilities document, a
    DataLink service and a file store, each answering the same way
    whatever was requested before. *)

Module Example.

Definition registry_url : string :=
  "https://ws.cadc-ccda.hia-iha.nrc-cnrc.gc.ca/reg/resource-caps".

Definition caps_url : string :=
  "https://ws.cadc-ccda.hia-iha.nrc-cnrc.gc.ca/caom2ops/capabilities".

Definition links_url : string :=
  "https://ws.cadc-ccda.hia-iha.nrc-cnrc.gc.ca/caom2ops/datalink".

Definition newline : string := String "010" "".

Definition registry_text : string :=
  "# CADC registry" +:+ newline +:+
  "ivo://cadc.nrc.ca/caom2ops = " +:+ caps_url +:+ newline +:+
  newline +:+
  "ivo://cadc.nrc.ca/tap = https://ws.cadc-ccda.hia-iha.nrc-cnrc.gc.ca/tap/capabilities"
  +:+ newline.

Definition interface (security : list (list (string * string))) (url : string) : node :=
  Tag "interface" []
    (map (λ attrs, Tag "securitymethod" attrs []) security ++
     [Tag "accessurl" [("use", "base")] [NavigableString url]]).

Definition capability (standardid : string) (interfaces : list node) : node :=
  Tag "capability" [("standardid", standardid)] interfaces.

Definition document (capabilities : list node) : node :=
  Tag "[document]" [] [Tag "html" [] [Tag "body" [] [Tag "capabilities" [] capabilities]]].

Definition cert : list (string * string) :=
  [("standardid", "ivo://ivoa.net/sso#tls-with-certificate")].
Definition password : list (string * string) :=
  [("standardid", "ivo://ivoa.net/sso#BasicAA")].
Definition cookie : list (string * string) :=
  [("standardid", "ivo://ivoa.net/sso#cookie")].

Definition links_id : string := "ivo://ivoa.net/std/DataLink#links-1.0".

(** The DataLink capability has one interface, which asks for a client
    certificate. *)
Definition caps_document : node :=
  document
    [capability "ivo://ivoa.net/std/VOSI#capabilities"
       [interface [] caps_url];
     capability links_id
       [interface [cert] links_url]].

Definition cutout_service : service_def :=
  {| sd_semantics := "#cutout";
     sd_access_url := "https://ws.cadc-ccda.hia-iha.nrc-cnrc.gc.ca/caom2ops/sync";
     sd_input_params := [("ID", "ivo://cadc.nrc.ca/CFHT?1/1p"); ("RUNID", "r1");
                         ("POS", "")] |}.

Definition primary_row : link_row :=
  {| semantics := "#this"; access_url := "https://example.org/data/1.fits" |}.
Definition auxiliary_row : link_row :=
  {| semantics := "#preview"; access_url := "https://example.org/data/1.png" |}.

Definition env_with (registry : http_reply) (doc : node)
    (files : string → file_reply) : Env :=
  {| CADC_REGISTRY_URL := registry_url;
     CADCDATALINK_SERVICE_URI := "ivo://cadc.nrc.ca/caom2ops";
     parse_coordinates := λ _, Returned {| ra_degree := "131.28125"; dec_degree := "54.3" |};
     http := λ _ url,
       if String.eqb url registry_url then registry
       else HttpReply 200 "<capabilities/>";
     datalink := λ _ _, DalResults [cutout_service];
     fetch_fits := λ _ url, files url;
     parse_html := λ _, doc;
     parse_single_table := λ _, Returned [primary_row; auxiliary_row];
     quote_plus := λ s, s |}.

Definition env : Env :=
  env_with (HttpReply 200 registry_text) caps_document (λ url, FileFits ("HDU of " +:+ url)).

Definition pids (n : nat) : list string :=
  map (λ k, "ivo://cadc.nrc.ca/CFHT?" +:+ String (ascii_of_nat (65 + k)) "") (seq 0 n).

End Example.

(** * The client object, the session and the collections

    What follows extends the state of the process with the attributes of
    one [CadcClass] instance and with the session [pyvo.dal.tap.s]. *)

Module PyText.

(** [c in chars] *)
Fixpoint mem (c : ascii) (chars : string) : bool :=
  match chars with
  | "" => false
  | String d rest => Ascii.eqb c d || mem c rest
  end.

(** [s.rstrip(chars)]: the characters of [chars] are removed from the end
    of [s], one by one, until a character outside [chars] ends it. *)
Fixpoint rstrip (chars s : string) : string :=
  match s with
  | "" => ""
  | String c s' =>
      match rstrip chars s' with
      | "" => if mem c chars then "" else String c ""
      | r => String c r
      end
  end.

(** [s.count(c)] for one character. *)
Fixpoint count (c : ascii) (s : string) : nat :=
  match s with
  | "" => 0
  | String d s' => (if Ascii.eqb d c then 1 else 0) + count c s'
  end.

(** Every character of [s] is in [chars]. *)
Fixpoint all_in (chars s : string) : bool :=
  match s with
  | "" => true
  | String c s' => mem c chars && all_in chars s'
  end.

End PyText.

(** The double quote. *)
Definition dquote : string := String "034" "".

(** [pyvo.dal.tap.s], a [requests.Session]: its client certificate and its
    cookie jar. *)
Record Session : Type := mkSession {
  cert : option string;
  cookies : list (string * string);
}.

(** [requests.Session()] *)
Definition new_session : Session := {| cert := None; cookies := [] |}.

(** [requests.post(url, data=..., headers=...)] *)
Record post_request : Type := mkPost {
  post_url : string;
  post_data : list (string * string);
  post_headers : list (string * string);
}.

Record Client : Type := mkClient {
  process : World;
  baseurl : option string;         (* self.baseurl *)
  cadctap_attr : option string;    (* self._cadctap, a TAPService given by its base URL *)
  session : Session;               (* pyvo.dal.tap.s *)
  posted : list post_request;      (* requests.post calls so far, oldest first *)
  error_log : list string;         (* logger.error messages *)
  warnings_log : list string;      (* warnings.warn messages *)
}.

Definition initial_client : Client :=
  {| process := initial_world; baseurl := None; cadctap_attr := None;
     session := new_session; posted := []; error_log := []; warnings_log := [] |}.

(** Modelled from the spec: what the client needs beside [Env], the two
    service identifiers of [conf] and the answer of the login service to a
    POST, given the requests made before. *)
Record ClientEnv : Type := mkClientEnv {
  net : Env;
  CADCTAP_SERVICE_URI : string;        (* conf.CADCTAP_SERVICE_URI *)
  CADCLOGIN_SERVICE_URI : string;      (* conf.CADCLOGIN_SERVICE_URI *)
  requests_post : list request → list post_request → post_request → http_reply;
}.

Definition MC (A : Type) : Type := Client → result A * Client.

Definition retC {A} (a : A) : MC A := λ c, (Ok a, c).
Definition raiseC {A} (e : exn) : MC A := λ c, (Raise e, c).
Definition bindC {A B} (m : MC A) (k : A → MC B) : MC B :=
  λ c, match m c with
       | (Ok a, c') => k a c'
       | (Raise e, c') => (Raise e, c')
       end.

Notation "'let+' x ':=' m 'in' k" := (bindC m (λ x, k))
  (at level 10, x name, m at level 100, k at level 200).
Notation "m1 ';;+' m2" := (bindC m1 (λ _, m2))
  (at level 100, m2 at level 200, right associativity).

(** A computation on the state of the process, run by the client. *)
Definition in_process {A} (m : M A) : MC A :=
  λ c, match m (process c) with
       | (r, w') =>
           (r, {| process := w'; baseurl := baseurl c; cadctap_attr := cadctap_attr c;
                  session := session c; posted := posted c; error_log := error_log c;
                  warnings_log := warnings_log c |})
       end.

Definition get_client : MC Client := λ c, (Ok c, c).

Definition set_baseurl (url : option string) : MC unit :=
  λ c, (Ok (), {| process := process c; baseurl := url; cadctap_attr := cadctap_attr c;
                  session := session c; posted := posted c; error_log := error_log c;
                  warnings_log := warnings_log c |}).

Definition set_cadctap_attr (service : option string) : MC unit :=
  λ c, (Ok (), {| process := process c; baseurl := baseurl c; cadctap_attr := service;
                  session := session c; posted := posted c; error_log := error_log c;
                  warnings_log := warnings_log c |}).

Definition set_session (s : Session) : MC unit :=
  λ c, (Ok (), {| process := process c; baseurl := baseurl c;
                  cadctap_attr := cadctap_attr c; session := s; posted := posted c;
                  error_log := error_log c; warnings_log := warnings_log c |}).

Definition record_post (p : post_request) : MC unit :=
  λ c, (Ok (), {| process := process c; baseurl := baseurl c;
                  cadctap_attr := cadctap_attr c; session := session c;
                  posted := posted c ++ [p]; error_log := error_log c;
                  warnings_log := warnings_log c |}).

Definition logger_error (msg : string) : MC unit :=
  λ c, (Ok (), {| process := process c; baseurl := baseurl c;
                  cadctap_attr := cadctap_attr c; session := session c;
                  posted := posted c; error_log := error_log c ++ [msg];
                  warnings_log := warnings_log c |}).

Definition warnings_warn (msg : string) : MC unit :=
  λ c, (Ok (), {| process := process c; baseurl := baseurl c;
                  cadctap_attr := cadctap_attr c; session := session c;
                  posted := posted c; error_log := error_log c;
                  warnings_log := warnings_log c ++ [msg] |}).

Definition CADC_COOKIE_PREFIX : string := "CADC_SSO".

Section ClientObject.
Context (env : ClientEnv).

(** [CadcClass.__init__]; [tap_handler] and [verbose] are given by their
    truth value when they are not [None].  A new instance is a [Client]
    whose [cadctap_attr] is [None]: [__init__] does not touch it. *)
Definition __init__ (url : option string) (tap_handler verbose : option bool) : MC unit :=
  (if default false tap_handler
   then warnings_warn "tap_handler deprecated since version 0.4.0" else retC ()) ;;+
  (if bool_decide (verbose ≠ None)
   then warnings_warn "verbose deprecated since version 0.4.0" else retC ()) ;;+
  if bool_decide (url ≠ None) && bool_decide (tap_handler ≠ None) then
    raiseC (AttributeError "Can not input both url and tap handler")
  else
    set_baseurl url.

(** The property [cadctap]; building a [TAPService] sends nothing. *)
Definition cadctap : MC string :=
  let+ self := get_client in
  match cadctap_attr self with
  | Some service => retC service
  | None =>
      match baseurl self with
      | None =>
          let+ url := in_process (get_access_url (net env) (CADCTAP_SERVICE_URI env) None) in
          set_baseurl (Some url) ;;+
          (* remove capabilities endpoint to get to the service url *)
          let url := PyText.rstrip "capabilities" url in
          set_baseurl (Some url) ;;+
          set_cadctap_attr (Some url) ;;+
          retC url
      | Some url =>
          set_cadctap_attr (Some url) ;;+
          retC url
      end
  end.

(** [requests.post(url, data=args, headers=header)] *)
Definition post (url : string) (args header : list (string * string)) : MC (nat * string) :=
  λ c,
    let p := {| post_url := url; post_data := args; post_headers := header |} in
    let reply := requests_post env (sent (process c)) (posted c) p in
    match record_post p c with
    | (_, c') =>
        match reply with
        | HttpReply status text => (Ok (status, text), c')
        | HttpNoReply msg => (Raise (ConnectionError msg), c')
        end
    end.

(** [login]; the test [login_url is None] of line 151 never holds, since
    [get_access_url] returns a str or raises. *)
Definition login (user password certificate_file : option string) : MC unit :=
  if Py.truthy_opt certificate_file then
    (* a new session, to force the HTTPS hand shake *)
    set_session {| cert := certificate_file; cookies := [] |}
  else if negb (Py.truthy_opt user) || negb (Py.truthy_opt password) then
    raiseC (AttributeError "login credentials missing (user/password or certificate)")
  else
    let+ login_url :=
      in_process (get_access_url (net env) (CADCLOGIN_SERVICE_URI env)
                    (Some "ivo://ivoa.net/std/UMS#login-0.1")) in
    let args := [("username", format_opt user); ("password", format_opt password)] in
    let header := [("Content-type", "application/x-www-form-urlencoded");
                   ("Accept", "text/plain")] in
    let+ response := post login_url args header in
    (λ c, match in_process (raise_for_status login_url response) c with
          | (Ok _, c') => (Ok (), c')
          | (Raise e, c') =>
              (logger_error (format "Logging error: {}" [str_exn e]) ;;+ raiseC e) c'
          end) ;;+
    (* extract cookie *)
    let cookie := format (dquote +:+ "{}" +:+ dquote) [response.2] in
    let+ self := get_client in
    set_session {| cert := cert (session self);
                   cookies := dict_set (cookies (session self)) CADC_COOKIE_PREFIX cookie |}.

(** [logout] *)
Definition logout (verbose : option bool) : MC unit :=
  (if bool_decide (verbose ≠ None)
   then warnings_warn "verbose deprecated since 0.4.0" else retC ()) ;;+
  set_session new_session.
End ClientObject.

(** ** Collections *)

(** A row of the response to the query of [get_collections]; the band is
    [None] when the cell is masked. *)
Record enum_row : Type := mkEnumRow {
  row_collection : string;
  row_energy_emBand : option string;
}.

Record collection_info : Type := mkCollectionInfo {
  Description : string;
  Bands : list string;
}.

(** The body of [for row in response] in [get_collections]. *)
Definition collections_step (collections : list (string * collection_info))
    (row : enum_row) : list (string * collection_info) :=
  match dict_get collections (row_collection row) with
  | None =>
      let collection :=
        {| Description := format "The {} collection at the CADC" [row_collection row];
           Bands := [] |} in
      let collection :=
        match row_energy_emBand row with
        | Some band => {| Description := Description collection;
                          Bands := Bands collection ++ [band] |}
        | None => collection
        end in
      dict_set collections (row_collection row) collection
  | Some found =>
      match row_energy_emBand row with
      | Some band =>
          dict_set collections (row_collection row)
            {| Description := Description found; Bands := Bands found ++ [band] |}
      | None => collections
      end
  end.

(** Lines 263-275 of [get_collections], for the rows of the response. *)
Definition collect_collections (response : list enum_row)
  : list (string * collection_info) :=
  fold_left collections_step response [].

(** * The vocabulary of the properties *)

(** *** The query builder *)

(** The three clauses the specification names, with the values they embed. *)
Definition spatial_predicate (ra dec radius : string) : string :=
  "INTERSECTS( CIRCLE('ICRS', " +:+ ra +:+ ", " +:+ dec +:+ ", " +:+ radius +:+
  "), position_bounds) = 1".

Definition junk_exclusion : string :=
  "(quality_flag IS NULL OR quality_flag != 'junk')".

Definition collection_filter (collection : string) : string :=
  "collection='" +:+ collection +:+ "'".

(** The query before the collection test of line 695. *)
Definition base_query (sky : SkyCoord) (radius : radius_arg) : string :=
  format query_template [ra_degree sky; dec_degree sky; format_radius radius].

Definition select_from : string :=
  "SELECT * from caom2.Observation o join caom2.Plane p ON o.obsID=p.obsID WHERE ".

(** A radius passed as a str is embedded as it is.  With [collection=None],
    the query built for the radius text below is well-formed ADQL and
    contains the collection equality filter for CFHT. *)
Definition smuggled_kwargs : Kwargs :=
  {| kw_coordinates := CoordString "08h45m07.5s +54d18m00s";
     kw_radius :=
       RadiusStr ("0.1), position_bounds) = 1 AND collection='CFHT' AND " +:+
                  "INTERSECTS( CIRCLE('ICRS', 131.28125, 54.3, 0.1");
     kw_collection := Some None |}.

(** *** The coordinate utility *)





(** *** The registry cache *)

(** A process that calls [get_access_url] again and again, and goes on
    whatever a call returned or raised. *)
Fixpoint call_sequence (env : Env) (calls : list (string * option string)) (w : World)
  : World :=
  match calls with
  | [] => w
  | (service, capability) :: rest =>
      call_sequence env rest (get_access_url env service capability w).2
  end.

Definition later_calls : list (string * option string) :=
  [("tap", None); ("ivo://cadc.nrc.ca/caom2ops", Some Example.links_id);
   ("unknown", None); ("caom2ops", None)].

(** The registry answers 503, or sends a feed of comments only: the cache
    stays empty and the second call requests the feed again. *)
Definition outage_env : Env :=
  Example.env_with (HttpReply 503 "Service Unavailable") Example.caps_document
    (λ _, FileOtherError "unused").

Definition comments_env : Env :=
  Example.env_with (HttpReply 200 "# no service registered") Example.caps_document
    (λ _, FileOtherError "unused").

(** *** The capability resolver *)

(** The capability elements of the document that carry the requested
    standard identifier, in document order. *)
Definition matching (soup : node) (capability : option string) : list node :=
  List.filter (λ cap, bool_decide (Soup.get cap "standardid" = capability))
              (Soup.find_all "capability" soup).

(** A capability element from which the loop returns nothing: it does not
    have exactly one interface, and none of its interfaces passes the test
    for anonymous or cookie access. *)
Definition offers_nothing (cap : node) : Prop :=
  length (Soup.find_all "interface" cap) ≠ 1 ∧
  Forall (λ i, anonymous_or_cookie i = false) (Soup.find_all "interface" cap).



(** *** Which exceptions a call can raise *)

(** The usage error of [get_image_list] and [get_data_urls] for a result
    without the publisher-ID column. *)
Definition missing_column : exn :=
  AttributeError "caomPublisherID column missing from query_result argument".

(** [m] never raises [missing_column]. *)
Definition other_errors {A} (m : M A) : Prop :=
  ∀ w, (m w).1 ≠ Raise missing_column.

(** *** Plain data URLs *)

(** Follows the specification: "rows tagged with primary data semantics
    are always included; other rows with a non-empty access URL are
    included only if auxiliary inclusion is requested". *)
Definition included (include_auxiliaries : bool) (row : link_row) : bool :=
  if String.eqb (semantics row) "#this" then true
  else Py.truthy (access_url row) && include_auxiliaries.

Definition selected_urls (include_auxiliaries : bool) (tb : list link_row) : list string :=
  map access_url (List.filter (included include_auxiliaries) tb).

(** The DataLink service at [url] answers every request for one of
    [pids] with a links table, whatever was requested before. *)
Definition links_served (env : Env) (url : string) (tables : string → list link_row)
    (pids : list string) : Prop :=
  ∀ hist pid, pid ∈ pids →
    ∃ status text,
      http env hist (format "{}?{}" [url; urlencode env [("ID", pid)]])
      = HttpReply status text ∧
      is_http_error status = false ∧
      parse_single_table env text = Returned (tables pid).

(** *** Bulk image download *)

Definition with_requests (w : World) (new : list request) : World :=
  {| caps := caps w; data_link_url_attr := data_link_url_attr w;
     sent := sent w ++ new; debug_log := debug_log w |}.

(** Every file of [urls] can be retrieved, and gives the file [f u],
    whatever was requested before. *)
Definition retrievable (env : Env) (f : string → string) (urls : list string) : Prop :=
  ∀ hist u, u ∈ urls → fetch_fits env hist u = FileFits (f u).

Definition archive (name : string) : string := "https://example.org/data/" +:+ name.

(** The second file is forbidden, the others can be retrieved. *)
Definition forbidden_env : Env :=
  Example.env_with (HttpReply 200 Example.registry_text) Example.caps_document
    (λ url, if String.eqb url (archive "2.fits")
            then FileHTTPError "HTTP Error 403: Forbidden"
            else FileFits ("HDU of " +:+ url)).

(** *** DataLink requests of [get_image_list] *)

(** The query string of a URL: its text after the first question mark. *)
Fixpoint query_string (url : string) : string :=
  match url with
  | "" => ""
  | String c rest => if Ascii.eqb c "?" then rest else query_string rest
  end.

(** The [ID=...] parameters in the query string of a URL, in order. *)
Definition id_parameters (url : string) : list string :=
  List.filter (Py.startswith "ID=") (Py.split "&" (query_string url)).

(** The number of IDs a request carries in its URL; only the requests of
    [from_result_url] carry a batch. *)
Definition ids_carried (r : request) : nat :=
  match r with
  | DataLinkBatch url => length (id_parameters url)
  | _ => 0
  end.

(** *** The resolver, further *)

(** The URI under which [get_access_url] looks [service] up in the cache
    (lines 751-754). *)
Definition service_uri_of (service : string) : string :=
  if negb (Py.startswith "ivo" service)
  then format "ivo://cadc.nrc.ca/{}" [service]
  else service.

Definition is_GetCapabilities (r : request) : bool :=
  match r with GetCapabilities _ => true | _ => false end.

(** The state after one more request and, perhaps, one more debug line. *)
Definition after_request (w : World) (r : request) (logged : list string) : World :=
  {| caps := caps w; data_link_url_attr := data_link_url_attr w;
     sent := sent w ++ [r]; debug_log := debug_log w ++ logged |}.

(** The exception a failed [requests.get] ends in, and [None] for a reply
    that [raise_for_status] accepts. *)
Definition http_failure (url : string) (reply : http_reply) : option exn :=
  match reply with
  | HttpReply status _ =>
      if is_http_error status then Some (RequestsHTTPError url status) else None
  | HttpNoReply msg => Some (ConnectionError msg)
  end.

(** The capabilities documents cannot be reached. *)
Definition unreachable_env : Env :=
  {| CADC_REGISTRY_URL := Example.registry_url;
     CADCDATALINK_SERVICE_URI := "ivo://cadc.nrc.ca/caom2ops";
     parse_coordinates := parse_coordinates Example.env;
     http := λ _ url,
       if String.eqb url Example.registry_url
       then HttpReply 200 Example.registry_text
       else HttpNoReply "Connection refused";
     datalink := datalink Example.env;
     fetch_fits := fetch_fits Example.env;
     parse_html := parse_html Example.env;
     parse_single_table := parse_single_table Example.env;
     quote_plus := quote_plus Example.env |}.

(** *** The registry feed *)

(** A line of the feed that the loop passes over: empty, or a comment. *)
Definition skipped_line (line : string) : bool :=
  negb (Nat.ltb 0 (String.length line) && negb (Py.startswith "#" line)).

(** A line the loop accepts: passed over, or with exactly one [=]. *)
Definition well_formed_line (line : string) : Prop :=
  skipped_line line = true ∨ PyText.count "=" line = 1.

(** The entry a line of the feed stands for. *)
Definition line_entry (line : string) : option (string * string) :=
  if skipped_line line then None
  else match Py.split "=" line with
       | [service_id; capabilies_url] =>
           Some (Py.strip service_id, Py.strip capabilies_url)
       | _ => None
       end.

Definition store_line (cache : gmap string string) (line : string) : gmap string string :=
  match line_entry line with
  | Some (service_id, capabilies_url) => <[service_id:=capabilies_url]> cache
  | None => cache
  end.

Definition with_caps (w : World) (cache : gmap string string) : World :=
  {| caps := cache; data_link_url_attr := data_link_url_attr w;
     sent := sent w; debug_log := debug_log w |}.

(** A feed whose second entry has a query string. *)
Definition broken_feed : string :=
  "ivo://cadc.nrc.ca/tap = https://example.org/tap/capabilities" +:+ Example.newline +:+
  "ivo://cadc.nrc.ca/caom2ops = https://example.org/caps?service=caom2ops" +:+
  Example.newline +:+
  "ivo://cadc.nrc.ca/gms = https://example.org/gms/capabilities".

Definition broken_feed_env : Env :=
  Example.env_with (HttpReply 200 broken_feed) Example.caps_document
    (λ _, FileOtherError "unused").

(** *** Interfaces of a capability *)

(** Three interfaces: for certificates, for anonymous access and for
    cookies. *)
Definition mixed_document : node :=
  Example.document
    [Example.capability Example.links_id
       [Example.interface [Example.cert] (Example.links_url +:+ "-cert");
        Example.interface [] Example.links_url;
        Example.interface [Example.cookie] (Example.links_url +:+ "-cookie")]].

Definition mixed_env : Env :=
  Example.env_with (HttpReply 200 Example.registry_text) mixed_document
    (λ _, FileOtherError "unused").

(** One interface, without an accessurl element. *)
Definition bare_interface : node :=
  Tag "interface" [] [Tag "securitymethod" Example.cert []].

Definition bare_document : node :=
  Example.document [Example.capability Example.links_id [bare_interface]].

Definition bare_env : Env :=
  Example.env_with (HttpReply 200 Example.registry_text) bare_document
    (λ _, FileOtherError "unused").

(** *** Bulk image download, further *)

(** The second file cannot be read, for a reason other than an HTTP
    error. *)
Definition corrupt_env : Env :=
  Example.env_with (HttpReply 200 Example.registry_text) Example.caps_document
    (λ url, if String.eqb url (archive "2.fits")
            then FileOtherError "Empty or corrupt FITS file"
            else FileFits ("HDU of " +:+ url)).

(** *** Cutout URLs *)

(** The parameters [cutout_url] sends to a cutout service: those of the
    service named ID or RUNID, then the cutout parameters. *)
Definition forwarded_params (service_params cutout_params : list (string * string))
  : list (string * string) :=
  dict_update
    (fold_left
       (λ d param,
          if bool_decide (param.1 ∈ ["ID"; "RUNID"]) then dict_set d param.1 param.2
          else d)
       service_params [])
    cutout_params.

(** The values given to [name] in a list of parameters, in order. *)
Definition values_of (name : string) (params : list (string * string)) : list string :=
  omap (λ p, if decide (p.1 = name) then Some p.2 else None) params.

(** The URL of the DataLink request for a batch of IDs. *)
Definition batch_url (env : Env) (base : string) (ids : list string) : string :=
  format "{}?{}" [base; urlencode_doseq env [("ID", ids)]].

(** The POS parameter of a cutout. *)
Definition circle_of (sky : SkyCoord) (radius : radius_arg) : string :=
  format "CIRCLE {} {} {}" [ra_degree sky; dec_degree sky; format_radius radius].

(** The cutout URLs one DataLink response gives. *)
Definition cutout_urls (env : Env) (cutout_params : list (string * string))
    (records : list service_def) : list string :=
  fold_left (cutout_url env cutout_params) (bysemantics "#cutout" records) [].

(** *** Plain data URLs, further *)

(** The URL [_request] asks for. *)
Definition link_target (env : Env) (url pid : string) : string :=
  format "{}?{}" [url; urlencode env [("ID", pid)]].

(** A state in which the DataLink URL has been resolved already. *)
Definition resolved_world : World :=
  {| caps := ∅; data_link_url_attr := Some Example.links_url;
     sent := []; debug_log := [] |}.

(** The links of the second publisher ID are gone. *)
Definition gone_env : Env :=
  {| CADC_REGISTRY_URL := Example.registry_url;
     CADCDATALINK_SERVICE_URI := "ivo://cadc.nrc.ca/caom2ops";
     parse_coordinates := parse_coordinates Example.env;
     http := λ _ url,
       if String.eqb url (link_target Example.env Example.links_url
                            "ivo://cadc.nrc.ca/CFHT?B")
       then HttpReply 404 "Not Found"
       else HttpReply 200 "<VOTABLE/>";
     datalink := datalink Example.env;
     fetch_fits := fetch_fits Example.env;
     parse_html := parse_html Example.env;
     parse_single_table := parse_single_table Example.env;
     quote_plus := quote_plus Example.env |}.

(** *** The client object *)

(** The client once its TAP service is set up with [url], the state of
    the process being [w]. *)
Definition tap_client (c : Client) (w : World) (url : string) : Client :=
  {| process := w; baseurl := Some url; cadctap_attr := Some url;
     session := session c; posted := posted c; error_log := error_log c;
     warnings_log := warnings_log c |}.

Definition with_warnings (c : Client) (msgs : list string) : Client :=
  {| process := process c; baseurl := baseurl c; cadctap_attr := cadctap_attr c;
     session := session c; posted := posted c; error_log := error_log c;
     warnings_log := warnings_log c ++ msgs |}.

Definition with_session (c : Client) (s : Session) : Client :=
  {| process := process c; baseurl := baseurl c; cadctap_attr := cadctap_attr c;
     session := s; posted := posted c; error_log := error_log c;
     warnings_log := warnings_log c |}.

(** The request [login] posts. *)
Definition login_request (login_url user password : string) : post_request :=
  {| post_url := login_url;
     post_data := [("username", user); ("password", password)];
     post_headers := [("Content-type", "application/x-www-form-urlencoded");
                      ("Accept", "text/plain")] |}.

(** The client after the login service was located, leaving the process
    in [w], and was sent [p]. *)
Definition after_post (c : Client) (w : World) (p : post_request) : Client :=
  {| process := w; baseurl := baseurl c; cadctap_attr := cadctap_attr c;
     session := session c; posted := posted c ++ [p]; error_log := error_log c;
     warnings_log := warnings_log c |}.

Definition with_error (c : Client) (msg : string) : Client :=
  {| process := process c; baseurl := baseurl c; cadctap_attr := cadctap_attr c;
     session := session c; posted := posted c; error_log := error_log c ++ [msg];
     warnings_log := warnings_log c |}.

Definition login_capability : string := "ivo://ivoa.net/std/UMS#login-0.1".

Definition login_service_url : string :=
  "https://ws.cadc-ccda.hia-iha.nrc-cnrc.gc.ca/ac/login".

(** A capabilities document with a login capability open to anyone. *)
Definition login_document : node :=
  Example.document
    [Example.capability login_capability [Example.interface [] login_service_url]].

(** The login service knows one user. *)
Definition client_env : ClientEnv :=
  {| net := Example.env_with (HttpReply 200 Example.registry_text) login_document
              (λ _, FileOtherError "no files");
     CADCTAP_SERVICE_URI := "ivo://cadc.nrc.ca/tap";
     CADCLOGIN_SERVICE_URI := "ivo://cadc.nrc.ca/caom2ops";
     requests_post := λ _ _ p,
       if bool_decide (post_data p = [("username", "alice"); ("password", "secret")])
       then HttpReply 200 "token-of-alice"
       else HttpReply 401 "Unauthorized" |}.

(** *** Collections *)

(** The bands of the rows of collection [k] that are not masked. *)
Definition bands_of (k : string) (rows : list enum_row) : list string :=
  omap (λ row, if decide (row_collection row = k) then row_energy_emBand row else None)
       rows.

(** * Properties *)

(** ** Text *)

Lemma string_app_cons (x : ascii) (a b : string) :
  String x a +:+ b = String x (a +:+ b).
Proof. reflexivity. Qed.

Lemma string_app_assoc (a b c : string) : (a +:+ b) +:+ c = a +:+ b +:+ c.
Proof. induction a as [|x a IH]; [done|]. rewrite !string_app_cons. by rewrite IH. Qed.

Lemma string_app_nil_r (a : string) : a +:+ "" = a.
Proof. induction a as [|x a IH]; [done|]. rewrite string_app_cons. by rewrite IH. Qed.

Lemma string_app_length (a b : string) :
  String.length (a +:+ b) = String.length a + String.length b.
Proof.
  induction a as [|x a IH]; [done|]. rewrite string_app_cons. cbn. by rewrite IH.
Qed.

Lemma last_char_app (a b : string) :
  b ≠ "" → Py.last_char (a +:+ b) = Py.last_char b.
Proof.
  intros Hb. induction a as [|x a IH]; [done|].
  rewrite string_app_cons. cbn. rewrite IH. destruct (a +:+ b) eqn:E; [|done].
  destruct a, b; done.
Qed.

Lemma startswith_spec (p s : string) :
  Py.startswith p s = true ↔ ∃ t, s = p +:+ t.
Proof.
  revert s. induction p as [|a p IH]; intros s; cbn.
  - split; eauto.
  - destruct s as [|b s]; [split; [done|intros [t Ht]; discriminate]|].
    destruct (Ascii.eqb_spec a b) as [->|Hne].
    + rewrite IH. split; intros [t Ht]; exists t; [by rewrite Ht|by injection Ht].
    + split; [done|]. intros [t Ht]. injection Ht as ??. congruence.
Qed.

Lemma contains_spec (needle hay : string) :
  Py.contains needle hay = true ↔ Py.Contains needle hay.
Proof.
  induction hay as [|b hay IH]; cbn.
  - rewrite orb_false_r, startswith_spec. split.
    + intros [t Ht]. by exists "", t.
    + intros (pre & post & H). destruct pre; [by exists post|discriminate].
  - rewrite orb_true_iff, startswith_spec, IH. split.
    + intros [[t Ht]|(pre & post & H)]; [by exists "", t|].
      exists (String b pre), post. rewrite string_app_cons. by rewrite H.
    + intros (pre & post & H). destruct pre as [|x pre]; [left; by exists post|].
      right. exists pre, post. by injection H.
Qed.

(** ** The query builder *)

Lemma base_query_eq sky radius :
  base_query sky radius =
  select_from
  +:+ spatial_predicate (ra_degree sky) (dec_degree sky) (format_radius radius)
  +:+ " AND " +:+ junk_exclusion.
Proof.
  unfold spatial_predicate, base_query.
  generalize (ra_degree sky), (dec_degree sky), (format_radius radius).
  intros ra dec r.
  rewrite (string_app_assoc _ _ (" AND " +:+ junk_exclusion)).
  rewrite (string_app_assoc ra _ (" AND " +:+ junk_exclusion)).
  rewrite (string_app_assoc _ _ (" AND " +:+ junk_exclusion)).
  rewrite (string_app_assoc dec _ (" AND " +:+ junk_exclusion)).
  rewrite (string_app_assoc _ _ (" AND " +:+ junk_exclusion)).
  rewrite (string_app_assoc r _ (" AND " +:+ junk_exclusion)).
  reflexivity.
Qed.

Lemma args_to_payload_eq env kwargs sky w :
  parse_coordinates env (kw_coordinates kwargs) = Returned sky →
  _args_to_payload env kwargs w =
  (Ok [(KBuiltinFormat, "VOTable");
       (KStr "query",
        match collection_given kwargs with
        | Some c => base_query sky (kw_radius kwargs) +:+ " AND " +:+ collection_filter c
        | None => base_query sky (kw_radius kwargs)
        end)], w).
Proof.
  intros Hsky. unfold _args_to_payload, bind, external. rewrite Hsky.
  cbv beta iota delta [ret]. unfold base_query. set (q := format query_template _). clearbody q.
  destruct (collection_given kwargs); reflexivity.
Qed.

Lemma collection_given_Some kwargs c :
  collection_given kwargs = Some c ↔ kw_collection kwargs = Some (Some c) ∧ c ≠ "".
Proof.
  unfold collection_given. split.
  - destruct (kw_collection kwargs) as [[s|]|]; try done.
    destruct s; cbn; [done|]. intros [= <-]. done.
  - intros [-> Hc]. destruct c; done.
Qed.

Lemma base_query_last sky radius :
  Py.last_char (base_query sky radius) = Some ")"%char.
Proof.
  rewrite base_query_eq.
  generalize select_from,
    (spatial_predicate (ra_degree sky) (dec_degree sky) (format_radius radius)).
  intros P SP.
  rewrite <- (string_app_assoc SP), <- (string_app_assoc P).
  by rewrite last_char_app.
Qed.

Lemma collection_filter_last c : Py.last_char (collection_filter c) = Some "'"%char.
Proof.
  unfold collection_filter. rewrite <- (string_app_assoc _ c). by rewrite last_char_app.
Qed.

Lemma contains_spatial_predicate sky radius tail :
  Py.Contains
    (spatial_predicate (ra_degree sky) (dec_degree sky) (format_radius radius))
    (base_query sky radius +:+ tail).
Proof.
  rewrite base_query_eq.
  generalize select_from, junk_exclusion,
    (spatial_predicate (ra_degree sky) (dec_degree sky) (format_radius radius)).
  intros P J SP. exists P, ((" AND " +:+ J) +:+ tail).
  by rewrite (string_app_assoc P), (string_app_assoc SP).
Qed.

Lemma contains_junk_exclusion sky radius tail :
  Py.Contains junk_exclusion (base_query sky radius +:+ tail).
Proof.
  rewrite base_query_eq.
  generalize select_from, junk_exclusion,
    (spatial_predicate (ra_degree sky) (dec_degree sky) (format_radius radius)).
  intros P J SP. exists (P +:+ SP +:+ " AND "), tail.
  rewrite (string_app_assoc P _ (J +:+ tail)), (string_app_assoc SP _ (J +:+ tail)).
  by rewrite (string_app_assoc P), (string_app_assoc SP), (string_app_assoc " AND ").
Qed.

(** C1, as amended.  Whenever the coordinates parse, [_args_to_payload]
    returns a payload whose query contains the INTERSECTS(CIRCLE(...),
    position_bounds) predicate with the parsed position and the radius, and
    the junk-quality exclusion; the query ends with a collection equality
    filter if and only if a non-empty collection was supplied, and then it
    ends with the filter for that collection. *)
Theorem args_to_payload_clauses env kwargs sky w :
  parse_coordinates env (kw_coordinates kwargs) = Returned sky →
  ∃ p q,
    _args_to_payload env kwargs w = (Ok p, w) ∧
    dict_get p (KStr "query") = Some q ∧
    Py.Contains
      (spatial_predicate (ra_degree sky) (dec_degree sky)
         (format_radius (kw_radius kwargs))) q ∧
    Py.Contains junk_exclusion q ∧
    ((∃ c, Py.EndsWith (collection_filter c) q) ↔
     (∃ c, kw_collection kwargs = Some (Some c) ∧ c ≠ "")) ∧
    (∀ c, kw_collection kwargs = Some (Some c) → c ≠ "" →
          Py.EndsWith (" AND " +:+ collection_filter c) q).
Proof.
  intros Hsky. pose proof (args_to_payload_eq env kwargs sky w Hsky) as Heq.
  destruct (collection_given kwargs) as [c|] eqn:Hc;
    eexists _, _; (split; [exact Heq|]); (split; [reflexivity|]).
  - apply collection_given_Some in Hc as Hc'. destruct Hc' as [Hkw Hne].
    repeat split.
    + apply contains_spatial_predicate.
    + apply contains_junk_exclusion.
    + intros _. eauto.
    + intros _. exists c, (base_query sky (kw_radius kwargs) +:+ " AND ").
      by rewrite (string_app_assoc (base_query _ _)).
    + intros c' Hkw' _. assert (c' = c) as -> by congruence. by eexists.
  - repeat split.
    + rewrite <- (string_app_nil_r (base_query _ _)). apply contains_spatial_predicate.
    + rewrite <- (string_app_nil_r (base_query _ _)). apply contains_junk_exclusion.
    + intros [c [pre Hq]]. exfalso.
      apply (f_equal Py.last_char) in Hq.
      rewrite base_query_last, last_char_app, collection_filter_last in Hq; [done|].
      by destruct c.
    + intros [c Hc']. apply collection_given_Some in Hc'. congruence.
    + intros c Hkw Hne. assert (collection_given kwargs = Some c) as Hc'
        by by apply collection_given_Some. congruence.
Qed.

Lemma args_to_payload_clauses_witness :
  ∃ p q,
    _args_to_payload Example.env
      {| kw_coordinates := CoordString "08h45m07.5s +54d18m00s";
         kw_radius := RadiusFloat "0.016666666666667";
         kw_collection := Some (Some "CFHT") |} initial_world = (Ok p, initial_world) ∧
    dict_get p (KStr "query") = Some q ∧
    Py.Contains (spatial_predicate "131.28125" "54.3" "0.016666666666667") q ∧
    Py.Contains junk_exclusion q ∧
    ((∃ c, Py.EndsWith (collection_filter c) q) ↔
     (∃ c, Some (Some "CFHT") = Some (Some c) ∧ c ≠ "")) ∧
    (∀ c, Some (Some "CFHT") = Some (Some c) → c ≠ "" →
          Py.EndsWith (" AND " +:+ collection_filter c) q).
Proof.
  exact (args_to_payload_clauses Example.env
           {| kw_coordinates := CoordString "08h45m07.5s +54d18m00s";
              kw_radius := RadiusFloat "0.016666666666667";
              kw_collection := Some (Some "CFHT") |}
           {| ra_degree := "131.28125"; dec_degree := "54.3" |}
           initial_world eq_refl).
Defined.

Lemma collection_filter_without_collection :
  ∃ p q,
    _args_to_payload Example.env smuggled_kwargs initial_world = (Ok p, initial_world) ∧
    dict_get p (KStr "query") = Some q ∧
    ¬ ((∃ c, Py.Contains (collection_filter c) q) ↔
       (∃ c, kw_collection smuggled_kwargs = Some (Some c) ∧ c ≠ "")).
Proof.
  eexists _, _. split; [reflexivity|]. split; [reflexivity|].
  intros [Hforward _]. destruct Hforward as [c [Hc _]]; [|discriminate].
  exists "CFHT". apply contains_spec. vm_compute. reflexivity.
Qed.




(** ** What a call changes in the state of the process *)

Lemma registry_lines_frame lines u w :
  sent (for_each lines registry_line u w).2 = sent w ∧
  data_link_url_attr (for_each lines registry_line u w).2 = data_link_url_attr w.
Proof.
  revert u w. induction lines as [|line lines IH]; intros u w; [done|].
  cbn [for_each]. unfold bind.
  destruct (registry_line line u w) as [[u'|e] w1] eqn:Hline.
  - destruct (IH u' w1) as [-> ->].
    unfold registry_line in Hline.
    repeat case_match; cbv [ret raise caps_setitem] in Hline; by simplify_eq.
  - unfold registry_line in Hline.
    repeat case_match; cbv [ret raise caps_setitem] in Hline; by simplify_eq.
Qed.

Lemma load_registry_cached env w :
  caps w ≠ ∅ → load_registry env w = (Ok (), w).
Proof.
  intros Hne. unfold load_registry, bind, get_caps.
  by rewrite bool_decide_eq_false_2.
Qed.

Lemma load_registry_frame env w :
  data_link_url_attr (load_registry env w).2 = data_link_url_attr w ∧
  (sent (load_registry env w).2 = sent w ∨
   sent (load_registry env w).2 = sent w ++ [GetRegistry (CADC_REGISTRY_URL env)]).
Proof.
  unfold load_registry, bind, get_caps. case_bool_decide; [|by auto].
  unfold try_except, bind, requests_get, raise_for_status, record_request.
  destruct (http env (sent w) (CADC_REGISTRY_URL env)) as [status text|msg]; cbn.
  - destruct (is_http_error status); cbn; [by auto|].
    match goal with |- context [for_each ?l ?f ?u ?w0] =>
      destruct (registry_lines_frame l u w0) as [-> ->] end.
    by auto.
  - by auto.
Qed.

Lemma fetch_capabilities_frame env url w :
  caps (fetch_capabilities env url w).2 = caps w ∧
  data_link_url_attr (fetch_capabilities env url w).2 = data_link_url_attr w ∧
  sent (fetch_capabilities env url w).2 = sent w ++ [GetCapabilities url].
Proof.
  unfold fetch_capabilities, try_except, bind, requests_get, raise_for_status,
    record_request.
  destruct (http env (sent w) url) as [status text|msg]; cbn; [|done].
  by destruct (is_http_error status).
Qed.

Lemma locate_capabilities_frame env service capability w :
  data_link_url_attr (locate_capabilities env service capability w).2
  = data_link_url_attr w ∧
  (sent (locate_capabilities env service capability w).2 = sent w ∨
   sent (locate_capabilities env service capability w).2
   = sent w ++ [GetRegistry (CADC_REGISTRY_URL env)]) ∧
  (caps w ≠ ∅ →
   caps (locate_capabilities env service capability w).2 = caps w ∧
   sent (locate_capabilities env service capability w).2 = sent w).
Proof.
  unfold locate_capabilities.
  destruct (Py.startswith "http" service).
  { destruct (negb (Py.truthy_opt capability)); cbn; auto. }
  unfold bind.
  destruct (load_registry_frame env w) as [Hattr Hsent].
  assert (caps w ≠ ∅ → load_registry env w = (Ok (), w)) as Hcached
    by apply load_registry_cached.
  destruct (load_registry env w) as [[[]|e] w1]; cbn [fst snd] in *.
  - assert (∀ r : result (string + string) * World,
              r.2 = w1 →
              data_link_url_attr r.2 = data_link_url_attr w ∧
              (sent r.2 = sent w ∨
               sent r.2 = sent w ++ [GetRegistry (CADC_REGISTRY_URL env)]) ∧
              (caps w ≠ ∅ → caps r.2 = caps w ∧ sent r.2 = sent w)) as Hdone.
    { intros r ->. split; [done|]. split; [done|].
      intros Hne. by injection (Hcached Hne) as ->. }
    apply Hdone. unfold get_caps. by repeat case_match.
  - split; [done|]. split; [done|]. intros Hne. by specialize (Hcached Hne).
Qed.

(** One call: at most one request for the registry feed, at most one for
    a capabilities document, nothing else; with a cache that is not empty
    the feed is not requested and the cache stays as it is. *)
Lemma get_access_url_frame env service capability w :
  data_link_url_attr (get_access_url env service capability w).2
  = data_link_url_attr w ∧
  (∃ reg doc,
     sent (get_access_url env service capability w).2 = sent w ++ reg ++ doc ∧
     (reg = [] ∨ reg = [GetRegistry (CADC_REGISTRY_URL env)]) ∧
     (doc = [] ∨ ∃ url, doc = [GetCapabilities url]) ∧
     (caps w ≠ ∅ → reg = [])) ∧
  (caps w ≠ ∅ → caps (get_access_url env service capability w).2 = caps w).
Proof.
  unfold get_access_url, bind.
  destruct (locate_capabilities_frame env service capability w)
    as (Hattr & Hsent & Hcached).
  destruct (locate_capabilities env service capability w) as [[[url|caps_url]|e] w1];
    cbn [fst snd ret] in *.
  1,3: split; [done|]; split; [|by intros Hne; apply Hcached];
       destruct Hsent as [Hs|Hs].
  1,3: by exists [], []; rewrite Hs, !app_nil_r; auto.
  1,2: exists [GetRegistry (CADC_REGISTRY_URL env)], []; rewrite Hs, app_nil_r;
       repeat split; auto; intros Hne; destruct (Hcached Hne) as [_ Hs'];
       rewrite Hs' in Hs; by apply (f_equal length) in Hs;
       rewrite length_app in Hs; cbn in Hs; lia.
  destruct (fetch_capabilities_frame env caps_url w1) as (Hc & Ha & Hs1).
  destruct (fetch_capabilities env caps_url w1) as [[response2|e] w2];
    cbn [fst snd] in *.
  all: unfold lift; cbn [fst snd]; rewrite ?Ha, ?Hs1, ?Hc.
  all: split; [done|]; split; [|by intros Hne; apply Hcached].
  all: destruct Hsent as [Hs|Hs]; rewrite Hs.
  1,3: by exists [], [GetCapabilities caps_url]; repeat split; eauto.
  all: exists [GetRegistry (CADC_REGISTRY_URL env)], [GetCapabilities caps_url];
       rewrite <- app_assoc; repeat split; eauto.
  all: intros Hne; destruct (Hcached Hne) as [_ Hs'];
       rewrite Hs' in Hs; apply (f_equal length) in Hs;
       rewrite length_app in Hs; cbn in Hs; lia.
Qed.

(** ** The registry cache *)

Lemma registry_fetches_call env service capability w :
  registry_fetches (get_access_url env service capability w).2
  ≤ registry_fetches w + 1 ∧
  (caps w ≠ ∅ →
   registry_fetches (get_access_url env service capability w).2 = registry_fetches w).
Proof.
  destruct (get_access_url_frame env service capability w)
    as (_ & (reg & doc & Hsent & Hreg & Hdoc & Hcached) & _).
  unfold registry_fetches. rewrite Hsent, !List.filter_app, !length_app.
  assert (length (List.filter is_GetRegistry doc) = 0) as ->
    by (destruct Hdoc as [->|[url ->]]; done).
  split.
  - destruct Hreg as [->| ->]; cbn; lia.
  - intros Hne. rewrite (Hcached Hne). cbn. lia.
Qed.

Lemma registry_fetches_url_service env service capability w :
  Py.startswith "http" service = true →
  registry_fetches (get_access_url env service capability w).2 = registry_fetches w.
Proof.
  intros Hhttp. unfold get_access_url, locate_capabilities, bind. rewrite Hhttp.
  destruct (negb (Py.truthy_opt capability)); cbn [ret fst snd]; [done|].
  destruct (fetch_capabilities_frame env service w) as (_ & _ & Hsent).
  destruct (fetch_capabilities env service w) as [[response2|e] w2];
    cbn [fst snd lift] in *.
  all: unfold registry_fetches; rewrite Hsent, List.filter_app, length_app; cbn; lia.
Qed.

Lemma call_sequence_cached env calls w :
  caps w ≠ ∅ →
  caps (call_sequence env calls w) = caps w ∧
  registry_fetches (call_sequence env calls w) = registry_fetches w.
Proof.
  revert w. induction calls as [|[service capability] calls IH]; intros w Hne; [done|].
  cbn [call_sequence].
  destruct (get_access_url_frame env service capability w) as (_ & _ & Hcaps).
  destruct (registry_fetches_call env service capability w) as [_ Hfetch].
  specialize (Hcaps Hne). specialize (Hfetch Hne).
  destruct (IH (get_access_url env service capability w).2) as [-> ->];
    [by rewrite Hcaps|done].
Qed.

Lemma get_access_url_url_service env service capability w :
  Py.startswith "http" service = true →
  caps (get_access_url env service capability w).2 = caps w.
Proof.
  intros Hhttp. unfold get_access_url, locate_capabilities, bind. rewrite Hhttp.
  destruct (negb (Py.truthy_opt capability)); cbn [ret fst snd]; [done|].
  destruct (fetch_capabilities_frame env service w) as (Hcaps & _ & _).
  by destruct (fetch_capabilities env service w) as [[response2|e] w2].
Qed.

(** C8, as amended.  Every call, whether it returns or raises, requests
    the registry feed at most once; it does not request it at all, and
    leaves the cache as it is, when the service is given by its URL or the
    cache has an entry.  Once a call has left the cache with an entry, no
    later call, however many follow and whatever they ask for, requests
    the feed again or changes the cache. *)
Theorem registry_fetched_until_cached env service capability calls w :
  registry_fetches (get_access_url env service capability w).2
  ≤ registry_fetches w + 1 ∧
  (Py.startswith "http" service = true ∨ caps w ≠ ∅ →
   registry_fetches (get_access_url env service capability w).2 = registry_fetches w ∧
   caps (get_access_url env service capability w).2 = caps w) ∧
  (caps (get_access_url env service capability w).2 ≠ ∅ →
   caps (call_sequence env calls (get_access_url env service capability w).2)
   = caps (get_access_url env service capability w).2 ∧
   registry_fetches (call_sequence env calls (get_access_url env service capability w).2)
   = registry_fetches (get_access_url env service capability w).2).
Proof.
  split; [apply registry_fetches_call|]. split.
  - intros [Hhttp|Hcached].
    + split; [by apply registry_fetches_url_service|by apply get_access_url_url_service].
    + split; [by apply registry_fetches_call|].
      by apply (get_access_url_frame env service capability w).
  - apply call_sequence_cached.
Qed.

(** The first call of a process fills the cache; the four calls after it,
    one of them for an unknown service, leave the cache and the number of
    requests for the feed as they are.  A call by URL on the empty cache
    requests no feed. *)
Lemma registry_fetched_until_cached_witness :
  (caps (call_sequence Example.env later_calls
           (get_access_url Example.env "caom2ops" None initial_world).2)
   = caps (get_access_url Example.env "caom2ops" None initial_world).2 ∧
   registry_fetches
     (call_sequence Example.env later_calls
        (get_access_url Example.env "caom2ops" None initial_world).2)
   = registry_fetches (get_access_url Example.env "caom2ops" None initial_world).2) ∧
  (registry_fetches
     (get_access_url Example.env Example.caps_url (Some Example.links_id) initial_world).2
   = registry_fetches initial_world ∧
   caps (get_access_url Example.env Example.caps_url (Some Example.links_id)
           initial_world).2
   = caps initial_world).
Proof.
  split.
  - apply (registry_fetched_until_cached Example.env "caom2ops" None later_calls
             initial_world).
    intros Hempty. apply (f_equal (λ m, m !! "ivo://cadc.nrc.ca/tap")) in Hempty.
    vm_compute in Hempty. discriminate Hempty.
  - apply (registry_fetched_until_cached Example.env Example.caps_url
             (Some Example.links_id) [] initial_world).
    left. reflexivity.
Defined.

Lemma registry_fetched_twice :
  registry_fetches
    (call_sequence outage_env [("caom2ops", None); ("caom2ops", None)] initial_world) = 2 ∧
  registry_fetches
    (call_sequence comments_env [("caom2ops", None); ("caom2ops", None)] initial_world) = 2.
Proof. split; vm_compute; reflexivity. Qed.

(** ** The capability resolver *)

(** The test fails exactly for an interface whose first securitymethod
    element names a method other than the cookie one. *)
Lemma anonymous_or_cookie_false i :
  anonymous_or_cookie i = false ↔
  ∃ sm v, Soup.find "securitymethod" i = Some sm ∧
          Soup.get sm "standardid" = Some v ∧
          v ≠ "ivo://ivoa.net/sso#cookie".
Proof.
  unfold anonymous_or_cookie. split.
  - destruct (Soup.find "securitymethod" i) as [sm|]; [|done].
    destruct (Soup.get sm "standardid") as [v|] eqn:Hget; [|done].
    intros Hv%String.eqb_neq. by exists sm, v.
  - intros (sm & v & -> & -> & Hv). by apply String.eqb_neq.
Qed.

Lemma select_interface_none interfaces :
  Forall (λ i, anonymous_or_cookie i = false) interfaces →
  select_interface interfaces = None.
Proof. induction 1 as [|i rest Hi _ IH]; [done|]. cbn. by rewrite Hi. Qed.

Lemma select_capability_offers_nothing cap rest capability :
  offers_nothing cap →
  select_capability (cap :: rest) capability = select_capability rest capability.
Proof.
  intros [Hlen Hnone]. cbn [select_capability].
  case_bool_decide; [|done].
  destruct (Soup.find_all "interface" cap) as [|i [|i' l]]; [done|done|].
  by rewrite (select_interface_none _ Hnone).
Qed.


Lemma select_capability_single capabilities capability before cap after i :
  List.filter (λ cap, bool_decide (Soup.get cap "standardid" = capability))
              capabilities = before ++ cap :: after →
  Forall offers_nothing before →
  Soup.find_all "interface" cap = [i] →
  select_capability capabilities capability = Some (accessurl_text i).
Proof.
  intros Hfilter Hbefore Hsingle. revert before Hfilter Hbefore.
  induction capabilities as [|c rest IH]; intros before Hfilter Hbefore.
  { by destruct before. }
  cbn [List.filter] in Hfilter. case_bool_decide as Hid.
  - destruct before as [|b before]; cbn in Hfilter; injection Hfilter as -> Hrest.
    + cbn [select_capability]. rewrite bool_decide_eq_true_2 by done.
      by rewrite Hsingle.
    + apply Forall_cons in Hbefore as [Hb Hbefore].
      rewrite select_capability_offers_nothing by done. by apply (IH before).
  - cbn [select_capability]. rewrite bool_decide_eq_false_2 by done.
    by apply (IH before).
Qed.





(** ** Which exceptions a call can raise *)

Section OtherErrors.
Context {A B : Type}.

Lemma other_errors_ret (a : A) : other_errors (ret a).
Proof. by intros w. Qed.

Lemma other_errors_raise (e : exn) : e ≠ missing_column → other_errors (@raise A e).
Proof. intros He w [= ->]. done. Qed.

Lemma other_errors_bind (m : M A) (k : A → M B) :
  other_errors m → (∀ a, other_errors (k a)) → other_errors (bind m k).
Proof.
  intros Hm Hk w. unfold bind. specialize (Hm w).
  destruct (m w) as [[a|e] w']; [apply Hk|]. cbn in *. congruence.
Qed.

Lemma other_errors_external origin (o : outcome A) : other_errors (external origin o).
Proof. by destruct o. Qed.

Lemma other_errors_try_except (m : M A) handled handler :
  other_errors m →
  (∀ e, e ≠ missing_column → other_errors (handler e)) →
  other_errors (try_except m handled handler).
Proof.
  intros Hm Hh w. unfold try_except. specialize (Hm w).
  destruct (m w) as [[a|e] w']; [done|]. cbn in Hm.
  destruct (handled e); [|done]. apply Hh. congruence.
Qed.

Lemma other_errors_for_each (l : list A) (body : A → B → M B) (s : B) :
  (∀ x s, other_errors (body x s)) → other_errors (for_each l body s).
Proof.
  intros Hbody. revert s. induction l as [|x l IH]; intros s.
  - by intros w.
  - cbn [for_each]. unfold other_errors, bind in *. intros w.
    specialize (Hbody x s w).
    destruct (body x s w) as [[s'|e] w']; [apply IH|]. cbn in *. congruence.
Qed.
End OtherErrors.

Lemma other_errors_requests_get env mk url : other_errors (requests_get env mk url).
Proof. intros w. unfold requests_get. by destruct (http env (sent w) url). Qed.

Lemma other_errors_raise_for_status url response :
  other_errors (raise_for_status url response).
Proof. unfold raise_for_status. by destruct (is_http_error _). Qed.

Lemma other_errors_load_registry env : other_errors (load_registry env).
Proof.
  unfold load_registry. apply other_errors_bind; [done|]. intros cache.
  case_bool_decide; [|done].
  apply other_errors_bind.
  - apply other_errors_try_except.
    + apply other_errors_bind; [apply other_errors_requests_get|]. intros response.
      apply other_errors_bind; [apply other_errors_raise_for_status|done].
    + intros e He. apply other_errors_bind; [done|]. intros _.
      by apply other_errors_raise.
  - intros response. apply other_errors_for_each. intros line [] w.
    unfold registry_line. by repeat case_match.
Qed.

Lemma accessurl_text_error i e :
  accessurl_text i = Raise e →
  e = AttributeError "'NoneType' object has no attribute 'text'".
Proof. unfold accessurl_text. destruct (Soup.find "accessurl" i); congruence. Qed.

Lemma select_interface_error interfaces e :
  select_interface interfaces = Some (Raise e) →
  e = AttributeError "'NoneType' object has no attribute 'text'".
Proof.
  induction interfaces as [|i rest IH]; [done|]. cbn.
  destruct (anonymous_or_cookie i); [|done].
  intros [= H]. by apply accessurl_text_error in H.
Qed.

Lemma select_capability_error capabilities capability e :
  select_capability capabilities capability = Some (Raise e) →
  e = AttributeError "'NoneType' object has no attribute 'text'".
Proof.
  induction capabilities as [|cap rest IH]; [done|]. cbn [select_capability].
  case_bool_decide as Hid; [|done].
  destruct (Soup.find_all "interface" cap) as [|i [|i' l]] eqn:Hi.
  - done.
  - intros [= Hurl]. by apply accessurl_text_error in Hurl.
  - destruct (select_interface (i :: i' :: l)) as [r|] eqn:Hsel; [|done].
    intros [= ->]. by apply select_interface_error in Hsel.
Qed.

Lemma other_errors_get_access_url env service capability :
  other_errors (get_access_url env service capability).
Proof.
  unfold get_access_url. apply other_errors_bind.
  - unfold locate_capabilities. destruct (Py.startswith "http" service).
    { by destruct (negb _). }
    apply other_errors_bind; [apply other_errors_load_registry|]. intros _.
    apply other_errors_bind; [done|]. intros cache.
    destruct (cache !! _); [by destruct (negb _)|].
    apply other_errors_raise. unfold missing_column. cbn. congruence.
  - intros [url|caps_url]; [done|].
    apply other_errors_bind.
    + apply other_errors_try_except.
      * apply other_errors_bind; [apply other_errors_requests_get|]. intros response.
        apply other_errors_bind; [apply other_errors_raise_for_status|done].
      * intros e He. apply other_errors_bind; [done|]. intros _.
        by apply other_errors_raise.
    + intros response2 w. unfold lift, resolve_capability. cbn [fst].
      destruct (select_capability _ capability) as [[url|e]|] eqn:Hsel; [done| |done].
      apply select_capability_error in Hsel as ->. done.
Qed.

Lemma other_errors_data_link_url env : other_errors (data_link_url env).
Proof.
  unfold data_link_url. apply other_errors_bind; [done|]. intros [url|]; [done|].
  apply other_errors_bind; [apply other_errors_get_access_url|]. intros url.
  by apply other_errors_bind.
Qed.

(** ** Usage errors of the DataLink resolver *)

(** The two guards at the head of [get_data_urls]. *)
Lemma get_data_urls_guards env query_result include_auxiliaries w :
  query_result_truthy query_result = false ∨ column query_result "publisherID" = None →
  get_data_urls env query_result include_auxiliaries w
  = (Raise (if query_result_truthy query_result
            then AttributeError "caomPublisherID column missing from query_result argument"
            else AttributeError "Missing metadata argument"), w).
Proof.
  intros Husage. unfold get_data_urls.
  destruct (query_result_truthy query_result) eqn:Htruthy; [|done].
  destruct Husage as [?| ->]; done.
Qed.

(** C5.  For a query result that is empty, or that has rows but no
    'publisherID' column, [get_data_urls] raises AttributeError and leaves
    the state of the process as it was: no request has been sent. *)
Theorem get_data_urls_usage_error env query_result include_auxiliaries w :
  query_result_truthy query_result = false ∨ column query_result "publisherID" = None →
  get_data_urls env query_result include_auxiliaries w
  = (Raise (if query_result_truthy query_result
            then AttributeError "caomPublisherID column missing from query_result argument"
            else AttributeError "Missing metadata argument"), w) ∧
  sent (get_data_urls env query_result include_auxiliaries w).2 = sent w.
Proof.
  intros Husage. by rewrite get_data_urls_guards.
Qed.

Lemma get_data_urls_usage_error_witness :
  (get_data_urls Example.env
     (QueryTable [("observationID", ["1p"; "2p"]); ("caomPublisherID", Example.pids 2)])
     false initial_world
   = (Raise (AttributeError "caomPublisherID column missing from query_result argument"),
      initial_world) ∧
   sent (get_data_urls Example.env
           (QueryTable [("observationID", ["1p"; "2p"]);
                        ("caomPublisherID", Example.pids 2)])
           false initial_world).2 = []) ∧
  (get_data_urls Example.env (QueryTable [("publisherID", [])]) false initial_world
   = (Raise (AttributeError "Missing metadata argument"), initial_world) ∧
   sent (get_data_urls Example.env (QueryTable [("publisherID", [])]) false
           initial_world).2 = []).
Proof.
  split.
  - apply (get_data_urls_usage_error Example.env
             (QueryTable [("observationID", ["1p"; "2p"]);
                          ("caomPublisherID", Example.pids 2)])
             false initial_world).
    right. vm_compute. reflexivity.
  - apply (get_data_urls_usage_error Example.env (QueryTable [("publisherID", [])])
             false initial_world).
    left. vm_compute. reflexivity.
Defined.

Lemma other_errors_from_result_url env url :
  other_errors (from_result_url env url).
Proof. intros w. unfold from_result_url. by destruct (datalink env (sent w) url). Qed.

(** C10.  [get_data_urls] reads the column 'publisherID' and
    [get_image_list] the column 'caomPublisherID'.  For a query result with
    rows, with a 'caomPublisherID' column and without a 'publisherID'
    column, [get_data_urls] raises the missing-column error, whose message
    names caomPublisherID, and [get_image_list] does not raise it. *)
Theorem publisher_id_columns_differ env columns pids coordinates radius
    include_auxiliaries w :
  query_result_truthy (QueryTable columns) = true →
  column (QueryTable columns) "caomPublisherID" = Some pids →
  column (QueryTable columns) "publisherID" = None →
  get_data_urls env (QueryTable columns) include_auxiliaries w = (Raise missing_column, w) ∧
  (get_image_list env (QueryTable columns) coordinates radius w).1 ≠ Raise missing_column.
Proof.
  intros Htruthy Hcaom Hpublisher. split.
  - rewrite get_data_urls_guards by auto. by rewrite Htruthy.
  - unfold get_image_list. rewrite Htruthy. cbn [negb].
    apply other_errors_bind; [apply other_errors_external|]. intros parsed.
    rewrite Hcaom. apply other_errors_for_each. intros pid_sublist result.
    apply other_errors_bind; [apply other_errors_data_link_url|]. intros base.
    apply other_errors_bind; [apply other_errors_from_result_url|done].
Qed.

Lemma publisher_id_columns_differ_witness :
  get_data_urls Example.env (QueryTable [("caomPublisherID", Example.pids 3)]) true
    initial_world = (Raise missing_column, initial_world) ∧
  (get_image_list Example.env (QueryTable [("caomPublisherID", Example.pids 3)])
     (CoordString "08h45m07.5s +54d18m00s") (RadiusFloat "0.016666666666667")
     initial_world).1 ≠ Raise missing_column.
Proof.
  apply (publisher_id_columns_differ Example.env
           [("caomPublisherID", Example.pids 3)] (Example.pids 3)).
  - vm_compute. reflexivity.
  - vm_compute. reflexivity.
  - vm_compute. reflexivity.
Defined.

(** ** Plain data URLs *)

Lemma append_access_urls_selected include_auxiliaries tb result :
  append_access_urls include_auxiliaries tb result
  = result ++ selected_urls include_auxiliaries tb.
Proof.
  unfold append_access_urls, selected_urls. revert result.
  induction tb as [|row tb IH]; intros result; cbn [fold_left List.filter map].
  - by rewrite app_nil_r.
  - rewrite IH. unfold included at 2.
    destruct (String.eqb (semantics row) "#this"); [by rewrite <- app_assoc|].
    destruct (Py.truthy (access_url row) && include_auxiliaries);
      [by rewrite <- app_assoc|done].
Qed.

Lemma data_link_url_memo env url w :
  data_link_url_attr w = Some url → data_link_url env w = (Ok url, w).
Proof. intros Hattr. unfold data_link_url, bind, get_data_link_url_attr. by rewrite Hattr. Qed.

Lemma data_link_url_sets_attr env url w w1 :
  data_link_url env w = (Ok url, w1) → data_link_url_attr w1 = Some url.
Proof.
  unfold data_link_url, bind, get_data_link_url_attr.
  destruct (data_link_url_attr w) as [u|] eqn:Hattr.
  - by intros [= <- <-].
  - destruct (get_access_url env _ _ w) as [[u|e] w']; [|done].
    by intros [= <- <-].
Qed.

Section DataUrls.
Context (env : Env) (url : string) (include_auxiliaries : bool).
Context (tables : string → list link_row) (pids : list string).

Lemma get_data_urls_loop (todo : list string) (result : list string) (w w1 : World) :
  links_served env url tables pids → todo ⊆ pids →
  data_link_url env w = (Ok url, w1) →
  (for_each todo
     (λ pid result,
        let* url := data_link_url env in
        let* response := _request env url pid in
        raise_for_status url response ;;;
        let* tb := external "astropy" (parse_single_table env response.2) in
        ret (append_access_urls include_auxiliaries tb result))
     result w).1
  = Ok (result ++ flat_map (λ pid, selected_urls include_auxiliaries (tables pid)) todo).
Proof.
  intros Hserved. revert result w w1.
  induction todo as [|pid todo IH]; intros result w w1 Hsub Hurl.
  { cbn. by rewrite app_nil_r. }
  cbn [for_each flat_map]. unfold bind at 1. unfold bind at 1. rewrite Hurl.
  unfold bind at 1. unfold _request, requests_get.
  destruct (Hserved (sent w1) pid) as (status & text & -> & Hstatus & Htable).
  { apply Hsub. by left. }
  cbn [record_request]. unfold bind at 1. unfold raise_for_status. cbn [fst snd].
  rewrite Hstatus. unfold bind at 1. rewrite Htable. cbn [external ret].
  rewrite append_access_urls_selected.
  erewrite IH.
  - by rewrite <- app_assoc.
  - intros x Hx. apply Hsub. by right.
  - apply data_link_url_memo. cbn. by apply data_link_url_sets_attr in Hurl.
Qed.
End DataUrls.

(** C4.  When the DataLink service resolves and answers each publisher ID
    with a links table, [get_data_urls] returns, in the order of the IDs
    and of the rows, the access URL of every row tagged '#this' and, if
    and only if [include_auxiliaries] is set, that of every other row with
    a non-empty access URL. *)
Theorem get_data_urls_selects env columns pids include_auxiliaries url tables w w1 :
  query_result_truthy (QueryTable columns) = true →
  column (QueryTable columns) "publisherID" = Some pids →
  data_link_url env w = (Ok url, w1) →
  links_served env url tables pids →
  (get_data_urls env (QueryTable columns) include_auxiliaries w).1
  = Ok (flat_map (λ pid, selected_urls include_auxiliaries (tables pid)) pids).
Proof.
  intros Htruthy Hcolumn Hurl Hserved.
  unfold get_data_urls. rewrite Htruthy, Hcolumn. cbn [negb].
  by rewrite (get_data_urls_loop env url include_auxiliaries tables pids pids [] w w1).
Qed.

(** One publisher ID, answered with a primary row and an auxiliary row. *)
Lemma get_data_urls_selects_witness :
  (get_data_urls Example.env (QueryTable [("publisherID", Example.pids 1)]) false
     initial_world).1 = Ok ["https://example.org/data/1.fits"] ∧
  (get_data_urls Example.env (QueryTable [("publisherID", Example.pids 1)]) true
     initial_world).1
  = Ok ["https://example.org/data/1.fits"; "https://example.org/data/1.png"].
Proof.
  assert (links_served Example.env Example.links_url
            (λ _, [Example.primary_row; Example.auxiliary_row]) (Example.pids 1))
    as Hserved.
  { intros hist pid _. exists 200, "<capabilities/>". repeat split. }
  split.
  - refine (get_data_urls_selects Example.env [("publisherID", Example.pids 1)]
              (Example.pids 1) false Example.links_url
              (λ _, [Example.primary_row; Example.auxiliary_row])
              initial_world _ _ _ _ Hserved);
      vm_compute; reflexivity.
  - refine (get_data_urls_selects Example.env [("publisherID", Example.pids 1)]
              (Example.pids 1) true Example.links_url
              (λ _, [Example.primary_row; Example.auxiliary_row])
              initial_world _ _ _ _ Hserved);
      vm_compute; reflexivity.
Defined.

(** ** Bulk image download *)

Lemma with_requests_nil w : with_requests w [] = w.
Proof. destruct w. unfold with_requests. cbn. by rewrite app_nil_r. Qed.

Lemma with_requests_app w new1 new2 :
  with_requests (with_requests w new1) new2 = with_requests w (new1 ++ new2).
Proof. unfold with_requests. cbn. by rewrite app_assoc. Qed.

Section Retrieval.
Context (env : Env) (f : string → string).

Lemma retrieve_loop_prefix (urls rest : list string) (images : list string) w :
  retrievable env f urls →
  for_each_mut (urls ++ rest)
    (λ obj images, let* hdulist := get_fits env obj in ret (images ++ [hdulist]))
    images w
  = for_each_mut rest
      (λ obj images, let* hdulist := get_fits env obj in ret (images ++ [hdulist]))
      (images ++ map f urls) (with_requests w (map RetrieveFile urls)).
Proof.
  revert images w. induction urls as [|u urls IH]; intros images w Hok.
  { cbn [app map]. by rewrite app_nil_r, with_requests_nil. }
  cbn [app for_each_mut map]. unfold bind at 1. unfold get_fits at 1.
  rewrite (Hok (sent w) u) by by left. cbn [record_request ret].
  rewrite IH.
  - rewrite <- app_assoc. f_equal. unfold with_requests. cbn. by rewrite <- app_assoc.
  - intros hist x Hx. apply Hok. by right.
Qed.

(** Without a failure every file is retrieved and returned. *)
Lemma retrieve_images_all (urls : list string) show_progress w :
  retrievable env f urls →
  retrieve_images env urls show_progress w
  = (Ok (map f urls), with_requests w (map RetrieveFile urls)).
Proof.
  intros Hok. unfold retrieve_images.
  rewrite <- (app_nil_r urls) at 1. by rewrite retrieve_loop_prefix.
Qed.
End Retrieval.

(** C2, as amended.  When the retrieval of a file fails with an HTTP error,
    the error is logged and not raised, and the download stops there: the
    list returned holds the files retrieved before the failure, in order,
    and neither the file that failed nor any file after it in the URL list
    is in it; the files after it are not requested. *)
Theorem retrieve_images_stops_at_failure env f urls url msg later show_progress w :
  retrievable env f urls →
  (∀ hist, fetch_fits env hist url = FileHTTPError msg) →
  retrieve_images env (urls ++ url :: later) show_progress w
  = (Ok (map f urls),
     {| caps := caps w; data_link_url_attr := data_link_url_attr w;
        sent := sent w ++ map RetrieveFile urls ++ [RetrieveFile url];
        debug_log := debug_log w ++ [msg +:+ " - Problem retrieving the file: " +:+ url] |}).
Proof.
  intros Hok Hfail. unfold retrieve_images.
  rewrite (retrieve_loop_prefix env f) by done.
  cbn [for_each_mut]. unfold bind at 1. unfold get_fits at 1.
  rewrite Hfail. cbn [record_request]. unfold bind, logger_debug, ret.
  cbn [sent caps data_link_url_attr debug_log with_requests str_exn].
  rewrite <- (app_assoc (sent w)). reflexivity.
Qed.

Lemma retrieve_images_stops_at_failure_witness :
  retrieve_images forbidden_env
    ([archive "1.fits"] ++ archive "2.fits" :: [archive "3.fits"; archive "4.fits"])
    true initial_world
  = (Ok ["HDU of " +:+ archive "1.fits"],
     {| caps := ∅; data_link_url_attr := None;
        sent := [RetrieveFile (archive "1.fits"); RetrieveFile (archive "2.fits")];
        debug_log := ["HTTP Error 403: Forbidden - Problem retrieving the file: "
                      +:+ archive "2.fits"] |}).
Proof.
  apply (retrieve_images_stops_at_failure forbidden_env (λ url, "HDU of " +:+ url)
           [archive "1.fits"] (archive "2.fits") "HTTP Error 403: Forbidden"
           [archive "3.fits"; archive "4.fits"] true initial_world).
  - intros hist u Hu. apply list_elem_of_singleton in Hu as ->. vm_compute. reflexivity.
  - intros hist. vm_compute. reflexivity.
Defined.

(** The third file can be retrieved, and yet it is neither requested nor
    returned once the second has failed. *)
Lemma later_files_not_retrieved :
  fetch_fits forbidden_env
    [RetrieveFile (archive "1.fits"); RetrieveFile (archive "2.fits")]
    (archive "3.fits") = FileFits ("HDU of " +:+ archive "3.fits") ∧
  (retrieve_images forbidden_env [archive "1.fits"; archive "2.fits"; archive "3.fits"]
     true initial_world).1 = Ok ["HDU of " +:+ archive "1.fits"] ∧
  sent (retrieve_images forbidden_env
          [archive "1.fits"; archive "2.fits"; archive "3.fits"] true initial_world).2
  = [RetrieveFile (archive "1.fits"); RetrieveFile (archive "2.fits")].
Proof. repeat split; vm_compute; reflexivity. Qed.

(** In this version [get_images] does not reach the download: [run_query]
    returns [None], and asking it for its results raises. *)
Lemma get_images_raises env coordinates radius collection show_progress sky w :
  parse_coordinates env coordinates = Returned sky →
  get_images env coordinates radius collection false show_progress w
  = (Raise (AttributeError "'NoneType' object has no attribute 'get_results'"), w).
Proof.
  intros Hsky. unfold get_images. unfold bind at 1.
  rewrite (args_to_payload_eq env _ sky) by done.
  cbn [kw_radius]. generalize (base_query sky radius) as q. intros q.
  by destruct (collection_given _).
Qed.

(** ** Batches of publisher identifiers *)

Lemma range0_count_step (len n : nat) :
  0 < n → 0 < len → (len + n - 1) / n = S ((len - n + n - 1) / n).
Proof.
  intros Hn Hlen. destruct (Nat.le_gt_cases n len) as [Hle|Hlt].
  - replace (len + n - 1) with ((len - n + n - 1) + 1 * n) by lia.
    rewrite Nat.div_add by lia. lia.
  - replace (len - n) with 0 by lia.
    rewrite (Nat.div_small (0 + n - 1)) by lia.
    replace (len + n - 1) with ((len - 1) + 1 * n) by lia.
    rewrite Nat.div_add by lia. rewrite Nat.div_small by lia. done.
Qed.

Lemma chunks_nil {A} (n : nat) : 0 < n → chunks (@nil A) n = [].
Proof.
  intros Hn. unfold chunks, Py.range0. cbn [length].
  by rewrite (Nat.div_small (0 + n - 1)) by lia.
Qed.

(** The first batch is the first [n] elements, the others are the batches
    of the rest. *)
Lemma chunks_cons {A} (l : list A) (n : nat) :
  0 < n → l ≠ [] → chunks l n = take n l :: chunks (drop n l) n.
Proof.
  intros Hn Hl. unfold chunks, Py.range0, Py.slice.
  rewrite range0_count_step; [|done|destruct l; [done|cbn; lia]].
  rewrite length_drop. cbn [seq map].
  f_equal.
  - rewrite drop_0. f_equal. lia.
  - rewrite <- seq_shift, !map_map. apply map_ext. intros k.
    rewrite drop_drop.
    replace (S k * n + n - S k * n) with (k * n + n - k * n) by lia. done.
Qed.

Lemma chunks_partition {A} (l : list A) (n : nat) :
  0 < n →
  concat (chunks l n) = l ∧ Forall (λ b, 0 < length b ≤ n) (chunks l n).
Proof.
  intros Hn. remember (length l) as len eqn:Hlen. revert l Hlen.
  induction len as [len IH] using lt_wf_ind. intros l Hlen.
  destruct l as [|x l].
  { by rewrite chunks_nil. }
  rewrite chunks_cons by done.
  destruct (IH (length (drop n (x :: l)))) with (l := drop n (x :: l)) as [Hcat Hall];
    [rewrite length_drop; cbn in *; lia|done|].
  split.
  - cbn [concat]. by rewrite Hcat, take_drop.
  - constructor; [|done]. rewrite length_take. cbn [length]. lia.
Qed.

Lemma chunks_45 {A} (l : list A) :
  length l = 45 → map length (chunks l 20) = [20; 20; 5].
Proof.
  intros Hlen. unfold chunks, Py.range0, Py.slice. rewrite Hlen.
  change ((45 + 20 - 1) / 20) with 3. cbn [seq map Nat.mul Nat.add Nat.sub].
  rewrite !length_take, !length_drop, Hlen. reflexivity.
Qed.

(** ** DataLink requests of [get_image_list] *)

Lemma batch_url_explicit env base ids :
  batch_url env base ids
  = base +:+ "?" +:+
    Py.join "&" (map (λ pid, quote_plus env "ID" +:+ "=" +:+ quote_plus env pid) ids).
Proof.
  unfold batch_url, urlencode_doseq. cbn [flat_map fst snd]. by rewrite app_nil_r.
Qed.

Section ImageListRequests.
Context (env : Env) (cutout_params : list (string * string)) (base : string).
Context (records_of : string → list service_def).
Context (Hserved : ∀ hist url, datalink env hist url = DalResults (records_of url)).

(** With the DataLink URL resolved and the service answering, the loop
    sends one request for each batch, in order, and nothing else. *)
Lemma batch_loop_served (batches : list (list string)) (result : list string) w :
  data_link_url_attr w = Some base →
  ∃ urls,
    for_each batches
      (λ pid_sublist result,
         let* base := data_link_url env in
         let* datalink :=
           from_result_url env
             (format "{}?{}" [base; urlencode_doseq env [("ID", pid_sublist)]]) in
         ret (fold_left (cutout_url env cutout_params)
                        (bysemantics "#cutout" datalink) result))
      result w
    = (Ok urls,
       with_requests w (map (λ ids, DataLinkBatch (batch_url env base ids)) batches)).
Proof.
  revert result w. induction batches as [|ids batches IH]; intros result w Hattr.
  { exists result. cbn [for_each map]. by rewrite with_requests_nil. }
  cbn [for_each map]. unfold bind at 1. unfold bind at 1.
  rewrite (data_link_url_memo env base w Hattr).
  unfold bind at 1. unfold from_result_url at 1. rewrite Hserved.
  cbn [record_request ret].
  match goal with |- context [for_each batches _ ?r ?w0] =>
    destruct (IH r w0) as [urls Hrest]; [done|] end.
  exists urls. rewrite Hrest. f_equal.
  unfold with_requests, batch_url. cbn [caps data_link_url_attr sent debug_log].
  by rewrite <- app_assoc.
Qed.

(** The first batch resolves the DataLink URL, the others find it. *)
Lemma batch_loop_resolves (ids : list string) (batches : list (list string))
    (result : list string) w w1 :
  data_link_url env w = (Ok base, w1) →
  ∃ urls,
    for_each (ids :: batches)
      (λ pid_sublist result,
         let* base := data_link_url env in
         let* datalink :=
           from_result_url env
             (format "{}?{}" [base; urlencode_doseq env [("ID", pid_sublist)]]) in
         ret (fold_left (cutout_url env cutout_params)
                        (bysemantics "#cutout" datalink) result))
      result w
    = (Ok urls,
       with_requests w1
         (map (λ ids, DataLinkBatch (batch_url env base ids)) (ids :: batches))).
Proof.
  intros Hurl. cbn [for_each map]. unfold bind at 1. unfold bind at 1. rewrite Hurl.
  unfold bind at 1. unfold from_result_url at 1. rewrite Hserved.
  cbn [record_request ret].
  match goal with |- context [for_each batches _ ?r ?w0] =>
    destruct (batch_loop_served batches r w0) as [urls Hrest] end.
  { cbn. by apply data_link_url_sets_attr in Hurl. }
  exists urls. rewrite Hrest. f_equal.
  unfold with_requests, batch_url. cbn [caps data_link_url_attr sent debug_log].
  by rewrite <- app_assoc.
Qed.
End ImageListRequests.

(** C3.  [get_image_list] cuts the publisher IDs into consecutive batches
    of at most 20: the batches put end to end give back the IDs, and none
    is empty or longer than 20.  When the coordinates parse, the DataLink
    URL resolves and the DataLink service answers, the call returns and
    the requests it has sent, after those that resolved the DataLink URL,
    are exactly one for each batch, in order; the URL of a request is the
    DataLink URL followed by one ID parameter for each ID of its batch.
    For 45 IDs there are three batches, of 20, 20 and 5 IDs, so that
    exactly three DataLink requests are sent. *)
Theorem get_image_list_batches env columns pids coordinates radius sky base
    records_of w w1 :
  query_result_truthy (QueryTable columns) = true →
  column (QueryTable columns) "caomPublisherID" = Some pids →
  parse_coordinates env coordinates = Returned sky →
  data_link_url env w = (Ok base, w1) →
  (∀ hist url, datalink env hist url = DalResults (records_of url)) →
  concat (chunks pids 20) = pids ∧
  Forall (λ b, 0 < length b ≤ 20) (chunks pids 20) ∧
  (∃ urls,
     get_image_list env (QueryTable columns) coordinates radius w
     = (Ok urls,
        with_requests (if bool_decide (pids = []) then w else w1)
          (map (λ ids, DataLinkBatch (batch_url env base ids)) (chunks pids 20)))) ∧
  (∀ ids,
     batch_url env base ids
     = base +:+ "?" +:+
       Py.join "&" (map (λ pid, quote_plus env "ID" +:+ "=" +:+ quote_plus env pid) ids)) ∧
  (length pids = 45 →
   length (chunks pids 20) = 3 ∧ map length (chunks pids 20) = [20; 20; 5]).
Proof.
  intros Htruthy Hcolumn Hsky Hurl Hserved.
  destruct (chunks_partition pids 20) as [Hcat Hall]; [lia|].
  split; [done|]. split; [done|]. split; [|split].
  - unfold get_image_list. rewrite Htruthy, Hcolumn. cbn [negb].
    unfold bind at 1. unfold external. rewrite Hsky. cbn [ret].
    case_bool_decide as Hpids.
    + subst pids. rewrite chunks_nil by lia. exists []. cbn [for_each map].
      by rewrite with_requests_nil.
    + rewrite chunks_cons by (done || lia).
      by apply (batch_loop_resolves env _ base records_of Hserved).
  - intros ids. apply batch_url_explicit.
  - intros Hlen. pose proof (chunks_45 pids Hlen) as Hsizes.
    split; [|done]. apply (f_equal length) in Hsizes. by rewrite length_map in Hsizes.
Qed.

Lemma get_image_list_batches_witness :
  concat (chunks (Example.pids 45) 20) = Example.pids 45 ∧
  Forall (λ b, 0 < length b ≤ 20) (chunks (Example.pids 45) 20) ∧
  (∃ urls,
     get_image_list Example.env (QueryTable [("caomPublisherID", Example.pids 45)])
       (CoordString "08h45m07.5s +54d18m00s") (RadiusFloat "0.016666666666667")
       initial_world
     = (Ok urls,
        with_requests
          (if bool_decide (Example.pids 45 = []) then initial_world
           else (data_link_url Example.env initial_world).2)
          (map (λ ids, DataLinkBatch (batch_url Example.env Example.links_url ids))
               (chunks (Example.pids 45) 20)))) ∧
  (∀ ids,
     batch_url Example.env Example.links_url ids
     = Example.links_url +:+ "?" +:+
       Py.join "&"
         (map (λ pid, quote_plus Example.env "ID" +:+ "=" +:+ quote_plus Example.env pid)
              ids)) ∧
  (length (Example.pids 45) = 45 →
   length (chunks (Example.pids 45) 20) = 3 ∧
   map length (chunks (Example.pids 45) 20) = [20; 20; 5]).
Proof.
  refine (get_image_list_batches Example.env [("caomPublisherID", Example.pids 45)]
            (Example.pids 45) (CoordString "08h45m07.5s +54d18m00s")
            (RadiusFloat "0.016666666666667")
            {| ra_degree := "131.28125"; dec_degree := "54.3" |}
            Example.links_url (λ _, [Example.cutout_service]) initial_world
            (data_link_url Example.env initial_world).2 _ _ _ _ _).
  - vm_compute. reflexivity.
  - vm_compute. reflexivity.
  - reflexivity.
  - vm_compute. reflexivity.
  - intros hist url. reflexivity.
Defined.

(** The run itself: 45 publisher IDs, the registry and the capabilities
    document fetched once, then three DataLink requests whose URLs carry
    20, 20 and 5 ID parameters. *)
Example forty_five_publisher_ids :
  is_ok (get_image_list Example.env
           (QueryTable [("caomPublisherID", Example.pids 45)])
           (CoordString "08h45m07.5s +54d18m00s") (RadiusFloat "0.016666666666667")
           initial_world).1 = true ∧
  map ids_carried
      (sent (get_image_list Example.env
               (QueryTable [("caomPublisherID", Example.pids 45)])
               (CoordString "08h45m07.5s +54d18m00s") (RadiusFloat "0.016666666666667")
               initial_world).2)
  = [0; 0; 20; 20; 5].
Proof. split; vm_compute; reflexivity. Qed.


(** * Further properties *)

(** ** The resolver without a capability *)

(** X1.  Asked for no capability, [get_access_url] never fetches a
    capabilities document: a service given by its URL is returned as it
    is, with the state untouched, and any other service is answered from
    the cache, after at most one request for the registry feed. *)
Theorem get_access_url_without_capability env service capability w :
  Py.truthy_opt capability = false →
  List.filter is_GetCapabilities (sent (get_access_url env service capability w).2)
  = List.filter is_GetCapabilities (sent w) ∧
  (Py.startswith "http" service = true →
   get_access_url env service capability w = (Ok service, w)) ∧
  (Py.startswith "http" service = false →
   ∀ url, (get_access_url env service capability w).1 = Ok url →
          caps (get_access_url env service capability w).2 !! service_uri_of service
          = Some url).
Proof.
  intros Hcap. unfold get_access_url, locate_capabilities.
  destruct (Py.startswith "http" service) eqn:Hhttp; rewrite Hcap; cbn [negb].
  { by repeat split. }
  fold (service_uri_of service). unfold bind.
  destruct (load_registry_frame env w) as [_ Hsent].
  destruct (load_registry env w) as [[[]|e] w1]; cbn [fst snd] in *.
  - unfold get_caps.
    destruct (caps w1 !! service_uri_of service) as [caps_url|] eqn:Hlookup;
      cbn [ret raise fst snd].
    + split; [|split; [done|by intros _ url [= <-]]].
      destruct Hsent as [->| ->]; [done|].
      by rewrite List.filter_app, app_nil_r.
    + split; [|split; [done|by intros _ url [=]]].
      destruct Hsent as [->| ->]; [done|].
      by rewrite List.filter_app, app_nil_r.
  - split; [|split; [done|by intros _ url [=]]].
    destruct Hsent as [->| ->]; [done|].
    by rewrite List.filter_app, app_nil_r.
Qed.

Lemma get_access_url_without_capability_witness :
  List.filter is_GetCapabilities
    (sent (get_access_url Example.env "caom2ops" None initial_world).2) = [] ∧
  (Py.startswith "http" "caom2ops" = true →
   get_access_url Example.env "caom2ops" None initial_world
   = (Ok "caom2ops", initial_world)) ∧
  (Py.startswith "http" "caom2ops" = false →
   ∀ url, (get_access_url Example.env "caom2ops" None initial_world).1 = Ok url →
          caps (get_access_url Example.env "caom2ops" None initial_world).2
            !! service_uri_of "caom2ops" = Some url).
Proof.
  apply (get_access_url_without_capability Example.env "caom2ops" None initial_world).
  reflexivity.
Defined.

(** X2.  With a cache that has entries but none for the service, a
    service that is not given by its URL is refused with AttributeError;
    the message names the service as it was passed, nothing is requested
    and the state is left as it was. *)
Theorem get_access_url_unknown_service env service capability w :
  Py.startswith "http" service = false →
  caps w ≠ ∅ →
  caps w !! service_uri_of service = None →
  get_access_url env service capability w
  = (Raise (AttributeError ("Cannot find the capabilities of service " +:+ service)), w).
Proof.
  intros Hhttp Hne Hlookup. unfold get_access_url, locate_capabilities.
  rewrite Hhttp. fold (service_uri_of service). unfold bind.
  rewrite load_registry_cached by done. unfold get_caps. by rewrite Hlookup.
Qed.

Lemma get_access_url_unknown_service_witness :
  get_access_url Example.env "argus" (Some Example.links_id)
    (get_access_url Example.env "caom2ops" None initial_world).2
  = (Raise (AttributeError "Cannot find the capabilities of service argus"),
     (get_access_url Example.env "caom2ops" None initial_world).2).
Proof.
  apply (get_access_url_unknown_service Example.env "argus" (Some Example.links_id)).
  - reflexivity.
  - intros Hempty. apply (f_equal (λ m, m !! "ivo://cadc.nrc.ca/tap")) in Hempty.
    vm_compute in Hempty. discriminate Hempty.
  - vm_compute. reflexivity.
Defined.

(** X3.  A short service name stands for the URI ivo://cadc.nrc.ca/ followed
    by the name: whenever the call with the short name returns, the call
    with the full URI does the same to the state and returns the same. *)
Theorem get_access_url_short_name env short capability w url :
  Py.startswith "http" short = false →
  Py.startswith "ivo" short = false →
  (get_access_url env short capability w).1 = Ok url →
  get_access_url env ("ivo://cadc.nrc.ca/" +:+ short) capability w
  = get_access_url env short capability w.
Proof.
  intros Hhttp Hivo. unfold get_access_url, locate_capabilities.
  rewrite Hhttp, Hivo.
  change (Py.startswith "http" ("ivo://cadc.nrc.ca/" +:+ short)) with false.
  change (Py.startswith "ivo" ("ivo://cadc.nrc.ca/" +:+ short)) with true.
  cbn [negb].
  change (format "ivo://cadc.nrc.ca/{}" [short]) with ("ivo://cadc.nrc.ca/" +:+ short).
  unfold bind.
  destruct (load_registry env w) as [[[]|e] w1]; [|done].
  unfold get_caps.
  destruct (caps w1 !! ("ivo://cadc.nrc.ca/" +:+ short)) as [caps_url|]; [done|].
  cbn. discriminate.
Qed.

Lemma get_access_url_short_name_witness :
  get_access_url Example.env ("ivo://cadc.nrc.ca/" +:+ "caom2ops")
    (Some Example.links_id) initial_world
  = get_access_url Example.env "caom2ops" (Some Example.links_id) initial_world.
Proof.
  apply (get_access_url_short_name Example.env "caom2ops" (Some Example.links_id)
           initial_world Example.links_url).
  - reflexivity.
  - reflexivity.
  - vm_compute. reflexivity.
Defined.

(** ** Failures of the two fetches *)

Lemma load_registry_failure env w e :
  caps w = ∅ →
  http_failure (CADC_REGISTRY_URL env) (http env (sent w) (CADC_REGISTRY_URL env)) = Some e →
  load_registry env w
  = (Raise e,
     after_request w (GetRegistry (CADC_REGISTRY_URL env))
       (if is_requests_http_error e
        then ["ERROR getting the CADC registry: " +:+ str_exn e] else [])).
Proof.
  intros Hempty Hfail. unfold load_registry, bind, get_caps.
  rewrite bool_decide_eq_true_2 by done.
  unfold try_except, bind, requests_get, raise_for_status, record_request, after_request.
  destruct (http env (sent w) (CADC_REGISTRY_URL env)) as [status text|msg];
    cbn [http_failure fst snd] in *.
  - destruct (is_http_error status); [|done]. injection Hfail as <-. reflexivity.
  - injection Hfail as <-. cbn [is_requests_http_error]. by rewrite app_nil_r.
Qed.

(** X6.  With an empty cache, a failed request for the registry feed ends
    the call with the failure itself and leaves the cache empty; an HTTP
    error status is written to the debug log first, a failure to connect
    is not. *)
Theorem get_access_url_registry_failure env service capability w e :
  Py.startswith "http" service = false →
  caps w = ∅ →
  http_failure (CADC_REGISTRY_URL env) (http env (sent w) (CADC_REGISTRY_URL env)) = Some e →
  get_access_url env service capability w
  = (Raise e,
     after_request w (GetRegistry (CADC_REGISTRY_URL env))
       (if is_requests_http_error e
        then ["ERROR getting the CADC registry: " +:+ str_exn e] else [])) ∧
  caps (get_access_url env service capability w).2 = ∅.
Proof.
  intros Hhttp Hempty Hfail. unfold get_access_url, locate_capabilities.
  rewrite Hhttp. unfold bind.
  rewrite (load_registry_failure env w e) by done.
  split; [reflexivity|exact Hempty].
Qed.

Lemma get_access_url_registry_failure_witness :
  get_access_url outage_env "caom2ops" None initial_world
  = (Raise (RequestsHTTPError Example.registry_url 503),
     after_request initial_world (GetRegistry Example.registry_url)
       ["ERROR getting the CADC registry: HTTP error for url: " +:+ Example.registry_url])
  ∧ caps (get_access_url outage_env "caom2ops" None initial_world).2 = ∅.
Proof.
  apply (get_access_url_registry_failure outage_env "caom2ops" None initial_world
           (RequestsHTTPError Example.registry_url 503)).
  - reflexivity.
  - reflexivity.
  - vm_compute. reflexivity.
Defined.

(** X7.  Once the capabilities URL is known, any failure of its fetch, an
    HTTP error status as well as a failure to connect, is written to the
    debug log and raised again; one request has been sent and the document
    is not looked at. *)
Theorem get_access_url_capabilities_failure env service capability w w1 caps_url e :
  locate_capabilities env service capability w = (Ok (inr caps_url), w1) →
  http_failure caps_url (http env (sent w1) caps_url) = Some e →
  get_access_url env service capability w
  = (Raise e,
     after_request w1 (GetCapabilities caps_url)
       ["ERROR getting the service capabilities: " +:+ str_exn e]).
Proof.
  intros Hlocate Hfail. unfold get_access_url, bind. rewrite Hlocate.
  unfold fetch_capabilities, try_except, bind, requests_get, raise_for_status,
    record_request, after_request.
  destruct (http env (sent w1) caps_url) as [status text|msg];
    cbn [http_failure fst snd] in *.
  - destruct (is_http_error status); [|done]. by injection Hfail as <-.
  - by injection Hfail as <-.
Qed.

Lemma get_access_url_capabilities_failure_witness :
  get_access_url unreachable_env "caom2ops" (Some Example.links_id) initial_world
  = (Raise (ConnectionError "Connection refused"),
     after_request
       (locate_capabilities unreachable_env "caom2ops" (Some Example.links_id)
          initial_world).2
       (GetCapabilities Example.caps_url)
       ["ERROR getting the service capabilities: Connection refused"]).
Proof.
  apply (get_access_url_capabilities_failure unreachable_env "caom2ops"
           (Some Example.links_id) initial_world).
  - vm_compute. reflexivity.
  - vm_compute. reflexivity.
Defined.

(** ** The registry feed *)

Lemma split_go_length sep cur s :
  length (Py.split_go sep cur s) = S (PyText.count sep s).
Proof.
  revert cur. induction s as [|c s IH]; intros cur; [done|].
  cbn [Py.split_go PyText.count].
  destruct (Ascii.eqb c sep); cbn [length]; by rewrite IH.
Qed.

Lemma split_two sep s :
  PyText.count sep s = 1 → ∃ a b, Py.split sep s = [a; b].
Proof.
  intros Hcount. pose proof (split_go_length sep "" s) as Hlen.
  rewrite Hcount in Hlen. unfold Py.split.
  destruct (Py.split_go sep "" s) as [|a [|b [|c l]]]; try done. by exists a, b.
Qed.

Lemma split_not_two sep s :
  PyText.count sep s ≠ 1 → length (Py.split sep s) ≠ 2.
Proof.
  intros Hcount. unfold Py.split. rewrite split_go_length. lia.
Qed.

Lemma registry_line_accepts line w :
  well_formed_line line →
  registry_line line () w = (Ok (), with_caps w (store_line (caps w) line)).
Proof.
  intros Hwf. unfold registry_line, store_line, line_entry, skipped_line in *.
  destruct (Nat.ltb 0 (String.length line) && negb (Py.startswith "#" line)) eqn:Hkeep;
    cbn [negb].
  - destruct Hwf as [Hskip|Hcount];
      [unfold skipped_line in Hskip; by rewrite Hkeep in Hskip|].
    destruct (split_two "=" line Hcount) as (a & b & ->). done.
  - by destruct w.
Qed.

Lemma registry_line_refuses line w :
  skipped_line line = false →
  PyText.count "=" line ≠ 1 →
  ∃ msg, registry_line line () w = (Raise (ValueError msg), w).
Proof.
  intros Hkeep Hcount. unfold registry_line, skipped_line in *.
  apply negb_false_iff in Hkeep. rewrite Hkeep.
  apply split_not_two in Hcount.
  destruct (Py.split "=" line) as [|a [|b [|c l]]]; try done; by eexists.
Qed.

Lemma registry_lines_accepted lines w :
  Forall well_formed_line lines →
  for_each lines registry_line () w
  = (Ok (), with_caps w (fold_left store_line lines (caps w))).
Proof.
  intros Hwf. revert w. induction Hwf as [|line lines Hline _ IH]; intros w.
  { by destruct w. }
  cbn [for_each fold_left]. unfold bind. rewrite registry_line_accepts by done.
  by rewrite IH.
Qed.

Lemma load_registry_fetched env w status text :
  caps w = ∅ →
  http env (sent w) (CADC_REGISTRY_URL env) = HttpReply status text →
  is_http_error status = false →
  load_registry env w
  = for_each (Py.splitlines text) registry_line ()
      (with_requests w [GetRegistry (CADC_REGISTRY_URL env)]).
Proof.
  intros Hempty Hreply Hstatus. unfold load_registry, bind, get_caps.
  rewrite bool_decide_eq_true_2 by done.
  unfold try_except, bind, requests_get, raise_for_status, record_request.
  rewrite Hreply. cbn [fst snd]. by rewrite Hstatus.
Qed.

Lemma store_lines_other (lines : list string) (cache : gmap string string) k :
  Forall (λ l, fst <$> line_entry l ≠ Some k) lines →
  fold_left store_line lines cache !! k = cache !! k.
Proof.
  intros Hother. revert cache. induction Hother as [|line lines Hline _ IH];
    intros cache; [done|].
  cbn [fold_left]. rewrite IH. unfold store_line.
  destruct (line_entry line) as [[k' v']|]; [|done].
  apply lookup_insert_ne. intros ->. by apply Hline.
Qed.

Lemma store_lines_last (before after : list string) line (cache : gmap string string) k v :
  line_entry line = Some (k, v) →
  Forall (λ l, fst <$> line_entry l ≠ Some k) after →
  fold_left store_line (before ++ line :: after) cache !! k = Some v.
Proof.
  intros Hline Hafter. rewrite fold_left_app. cbn [fold_left].
  rewrite store_lines_other by done. unfold store_line at 1. rewrite Hline.
  apply lookup_insert_eq.
Qed.

(** X4.  With an empty cache and a feed in which every line is empty, a
    comment or has exactly one [=], the whole feed is stored: the call
    returns for the service the value of the last line whose key, with the
    white space around it removed, is the service URI; the value is
    stripped of white space too, and nothing but the feed is requested. *)
Theorem get_access_url_reads_feed env service w status text before line after url :
  Py.startswith "http" service = false →
  caps w = ∅ →
  http env (sent w) (CADC_REGISTRY_URL env) = HttpReply status text →
  is_http_error status = false →
  Forall well_formed_line (Py.splitlines text) →
  Py.splitlines text = before ++ line :: after →
  line_entry line = Some (service_uri_of service, url) →
  Forall (λ l, fst <$> line_entry l ≠ Some (service_uri_of service)) after →
  get_access_url env service None w
  = (Ok url,
     with_caps (with_requests w [GetRegistry (CADC_REGISTRY_URL env)])
       (fold_left store_line (Py.splitlines text) ∅)).
Proof.
  intros Hhttp Hempty Hreply Hstatus Hwf Hlines Hline Hafter.
  unfold get_access_url, locate_capabilities. rewrite Hhttp.
  fold (service_uri_of service). unfold bind.
  rewrite (load_registry_fetched env w status text) by done.
  rewrite registry_lines_accepted by done.
  assert (fold_left store_line (Py.splitlines text) ∅ !! service_uri_of service
          = Some url) as Hlookup
    by (rewrite Hlines; by apply store_lines_last).
  unfold get_caps. cbn [caps with_caps with_requests]. rewrite Hempty.
  by rewrite Hlookup.
Qed.

Lemma get_access_url_reads_feed_witness :
  get_access_url Example.env "caom2ops" None initial_world
  = (Ok Example.caps_url,
     with_caps (with_requests initial_world [GetRegistry Example.registry_url])
       (fold_left store_line (Py.splitlines Example.registry_text) ∅)).
Proof.
  refine (get_access_url_reads_feed Example.env "caom2ops" initial_world 200
            Example.registry_text ["# CADC registry"]
            ("ivo://cadc.nrc.ca/caom2ops = " +:+ Example.caps_url)
            [""; "ivo://cadc.nrc.ca/tap = https://ws.cadc-ccda.hia-iha.nrc-cnrc.gc.ca/tap/capabilities"]
            Example.caps_url _ _ _ _ _ _ _ _).
  - reflexivity.
  - reflexivity.
  - reflexivity.
  - reflexivity.
  - repeat constructor; vm_compute; reflexivity.
  - vm_compute. reflexivity.
  - vm_compute. reflexivity.
  - repeat constructor; vm_compute; discriminate.
Defined.

(** X5.  A line of the feed that is neither empty nor a comment and does
    not have exactly one [=], such as a URL with a query string, ends the
    call with ValueError.  The lines before it stay in the cache and the
    lines after it are never read. *)
Theorem get_access_url_malformed_feed env service capability w status text
    good bad rest :
  Py.startswith "http" service = false →
  caps w = ∅ →
  http env (sent w) (CADC_REGISTRY_URL env) = HttpReply status text →
  is_http_error status = false →
  Py.splitlines text = good ++ bad :: rest →
  Forall well_formed_line good →
  skipped_line bad = false →
  PyText.count "=" bad ≠ 1 →
  ∃ msg,
    get_access_url env service capability w
    = (Raise (ValueError msg),
       with_caps (with_requests w [GetRegistry (CADC_REGISTRY_URL env)])
         (fold_left store_line good ∅)).
Proof.
  intros Hhttp Hempty Hreply Hstatus Hlines Hgood Hkeep Hcount.
  unfold get_access_url, locate_capabilities. rewrite Hhttp. unfold bind.
  rewrite (load_registry_fetched env w status text) by done. rewrite Hlines.
  assert (∀ w0, ∃ msg,
            for_each (good ++ bad :: rest) registry_line () w0
            = (Raise (ValueError msg), with_caps w0 (fold_left store_line good (caps w0))))
    as Hloop.
  { clear -Hgood Hkeep Hcount. induction Hgood as [|line good Hline _ IH]; intros w0.
    - cbn [app for_each fold_left]. unfold bind.
      destruct (registry_line_refuses bad w0 Hkeep Hcount) as [msg ->].
      exists msg. by destruct w0.
    - cbn [app for_each fold_left]. unfold bind.
      rewrite registry_line_accepts by done.
      destruct (IH (with_caps w0 (store_line (caps w0) line))) as [msg ->].
      by exists msg. }
  destruct (Hloop (with_requests w [GetRegistry (CADC_REGISTRY_URL env)])) as [msg ->].
  exists msg. cbn [caps with_requests]. by rewrite Hempty.
Qed.

Lemma get_access_url_malformed_feed_witness :
  ∃ msg,
    get_access_url broken_feed_env "gms" None initial_world
    = (Raise (ValueError msg),
       with_caps (with_requests initial_world [GetRegistry Example.registry_url])
         (fold_left store_line
            ["ivo://cadc.nrc.ca/tap = https://example.org/tap/capabilities"] ∅)).
Proof.
  refine (get_access_url_malformed_feed broken_feed_env "gms" None initial_world 200
            broken_feed
            ["ivo://cadc.nrc.ca/tap = https://example.org/tap/capabilities"]
            "ivo://cadc.nrc.ca/caom2ops = https://example.org/caps?service=caom2ops"
            ["ivo://cadc.nrc.ca/gms = https://example.org/gms/capabilities"]
            _ _ _ _ _ _ _ _).
  - reflexivity.
  - reflexivity.
  - reflexivity.
  - reflexivity.
  - vm_compute. reflexivity.
  - constructor; [right; vm_compute; reflexivity|constructor].
  - reflexivity.
  - vm_compute. discriminate.
Defined.

(** ** Interfaces of a capability *)

Lemma select_interface_first skipped i rest :
  Forall (λ j, anonymous_or_cookie j = false) skipped →
  anonymous_or_cookie i = true →
  select_interface (skipped ++ i :: rest) = Some (accessurl_text i).
Proof.
  intros Hskipped Hi. induction Hskipped as [|j skipped Hj _ IH]; cbn.
  - by rewrite Hi.
  - by rewrite Hj.
Qed.

Lemma select_capability_reaches capabilities capability before cap after r :
  List.filter (λ cap, bool_decide (Soup.get cap "standardid" = capability))
              capabilities = before ++ cap :: after →
  Forall offers_nothing before →
  (∀ rest, Soup.get cap "standardid" = capability →
           select_capability (cap :: rest) capability = Some r) →
  select_capability capabilities capability = Some r.
Proof.
  intros Hfilter Hbefore Hcap. revert before Hfilter Hbefore.
  induction capabilities as [|c rest IH]; intros before Hfilter Hbefore.
  { by destruct before. }
  cbn [List.filter] in Hfilter. case_bool_decide as Hid.
  - destruct before as [|b before]; cbn in Hfilter; injection Hfilter as -> Hrest.
    + by apply Hcap.
    + apply Forall_cons in Hbefore as [Hb Hbefore].
      rewrite select_capability_offers_nothing by done. by apply (IH before).
  - cbn [select_capability]. rewrite bool_decide_eq_false_2 by done.
    by apply (IH before).
Qed.

(** X8.  When the capability element for the requested identifier has
    several interfaces, the one returned is the first, in document order,
    that has no securitymethod element or whose first securitymethod
    element has no standardid or the cookie standardid; the interfaces
    before it and after it play no part. *)
Theorem first_usable_interface_resolves env service capability w w1 caps_url
    response2 w2 before cap after skipped i rest a :
  locate_capabilities env service (Some capability) w = (Ok (inr caps_url), w1) →
  fetch_capabilities env caps_url w1 = (Ok response2, w2) →
  matching (parse_html env response2.2) (Some capability) = before ++ cap :: after →
  Forall offers_nothing before →
  Soup.find_all "interface" cap = skipped ++ i :: rest →
  length (skipped ++ i :: rest) ≠ 1 →
  Forall (λ j, anonymous_or_cookie j = false) skipped →
  anonymous_or_cookie i = true →
  Soup.find "accessurl" i = Some a →
  get_access_url env service (Some capability) w = (Ok (Soup.text a), w2).
Proof.
  intros Hlocate Hfetch Hmatching Hbefore Hinterfaces Hlen Hskipped Hi Ha.
  unfold get_access_url, bind. rewrite Hlocate, Hfetch.
  unfold lift, resolve_capability.
  rewrite (select_capability_reaches _ _ before cap after (accessurl_text i)); try done.
  - unfold accessurl_text. by rewrite Ha.
  - intros others Hid. cbn [select_capability].
    rewrite bool_decide_eq_true_2 by done. rewrite Hinterfaces.
    pose proof (select_interface_first skipped i rest Hskipped Hi) as Hsel.
    destruct (skipped ++ i :: rest) as [|x [|y l]] eqn:Hl.
    + by destruct skipped.
    + done.
    + by rewrite Hsel.
Qed.

Lemma first_usable_interface_resolves_witness :
  get_access_url mixed_env "caom2ops" (Some Example.links_id) initial_world
  = (Ok Example.links_url,
     (fetch_capabilities mixed_env Example.caps_url
        (locate_capabilities mixed_env "caom2ops" (Some Example.links_id)
           initial_world).2).2).
Proof.
  refine (first_usable_interface_resolves mixed_env "caom2ops" Example.links_id
            initial_world _ Example.caps_url (200, "<capabilities/>") _
            [] (Example.capability Example.links_id
                  [Example.interface [Example.cert] (Example.links_url +:+ "-cert");
                   Example.interface [] Example.links_url;
                   Example.interface [Example.cookie] (Example.links_url +:+ "-cookie")])
            []
            [Example.interface [Example.cert] (Example.links_url +:+ "-cert")]
            (Example.interface [] Example.links_url)
            [Example.interface [Example.cookie] (Example.links_url +:+ "-cookie")]
            (Tag "accessurl" [("use", "base")] [NavigableString Example.links_url])
            _ _ _ _ _ _ _ _ _).
  - vm_compute. reflexivity.
  - vm_compute. reflexivity.
  - vm_compute. reflexivity.
  - constructor.
  - vm_compute. reflexivity.
  - cbn. lia.
  - constructor; [vm_compute; reflexivity|constructor].
  - vm_compute. reflexivity.
  - vm_compute. reflexivity.
Defined.

(** X9.  When the capability element for the requested identifier has
    exactly one interface and that interface has no accessurl element, the
    call ends with the AttributeError of [None.text], not with the
    RuntimeError of an unusable capability. *)
Theorem interface_without_accessurl env service capability w w1 caps_url response2 w2
    before cap after i :
  locate_capabilities env service (Some capability) w = (Ok (inr caps_url), w1) →
  fetch_capabilities env caps_url w1 = (Ok response2, w2) →
  matching (parse_html env response2.2) (Some capability) = before ++ cap :: after →
  Forall offers_nothing before →
  Soup.find_all "interface" cap = [i] →
  Soup.find "accessurl" i = None →
  get_access_url env service (Some capability) w
  = (Raise (AttributeError "'NoneType' object has no attribute 'text'"), w2).
Proof.
  intros Hlocate Hfetch Hmatching Hbefore Hsingle Ha.
  unfold get_access_url, bind. rewrite Hlocate, Hfetch.
  unfold lift, resolve_capability.
  rewrite (select_capability_single _ _ before cap after i) by done.
  unfold accessurl_text. by rewrite Ha.
Qed.

Lemma interface_without_accessurl_witness :
  get_access_url bare_env "caom2ops" (Some Example.links_id) initial_world
  = (Raise (AttributeError "'NoneType' object has no attribute 'text'"),
     (fetch_capabilities bare_env Example.caps_url
        (locate_capabilities bare_env "caom2ops" (Some Example.links_id)
           initial_world).2).2).
Proof.
  refine (interface_without_accessurl bare_env "caom2ops" Example.links_id
            initial_world _ Example.caps_url (200, "<capabilities/>") _
            [] (Example.capability Example.links_id [bare_interface]) []
            bare_interface _ _ _ _ _ _).
  - vm_compute. reflexivity.
  - vm_compute. reflexivity.
  - vm_compute. reflexivity.
  - constructor.
  - vm_compute. reflexivity.
  - vm_compute. reflexivity.
Defined.

(** ** [get_images] before the download *)

(** X10.  Asked for the payload only, [get_images] returns the payload of
    [_args_to_payload] with the image clause appended once to its query,
    and sends nothing. *)
Theorem get_images_payload env coordinates radius collection show_progress sky w :
  parse_coordinates env coordinates = Returned sky →
  ∃ p q,
    _args_to_payload env
      {| kw_coordinates := coordinates; kw_radius := radius;
         kw_collection := Some collection |} w = (Ok p, w) ∧
    dict_get p (KStr "query") = Some q ∧
    get_images env coordinates radius collection true show_progress w
    = (Ok (inl [(KBuiltinFormat, "VOTable");
                (KStr "query", q +:+ " AND (dataProductType = 'image')")]), w).
Proof.
  intros Hsky. unfold get_images. unfold bind at 1.
  rewrite (args_to_payload_eq env _ sky) by done.
  eexists _, _. split; [reflexivity|]. split; [reflexivity|].
  cbn [kw_radius]. generalize (base_query sky radius) as q. intros q.
  by destruct (collection_given _).
Qed.

Lemma get_images_payload_witness :
  ∃ p q,
    _args_to_payload Example.env
      {| kw_coordinates := CoordString "08h45m07.5s +54d18m00s";
         kw_radius := RadiusFloat "0.016666666666667";
         kw_collection := Some (Some "CFHT") |} initial_world = (Ok p, initial_world) ∧
    dict_get p (KStr "query") = Some q ∧
    get_images Example.env (CoordString "08h45m07.5s +54d18m00s")
      (RadiusFloat "0.016666666666667") (Some "CFHT") true true initial_world
    = (Ok (inl [(KBuiltinFormat, "VOTable");
                (KStr "query", q +:+ " AND (dataProductType = 'image')")]),
       initial_world).
Proof.
  exact (get_images_payload Example.env (CoordString "08h45m07.5s +54d18m00s")
           (RadiusFloat "0.016666666666667") (Some "CFHT") true
           {| ra_degree := "131.28125"; dec_degree := "54.3" |} initial_world eq_refl).
Defined.

(** X11.  Asked for the images, [get_images] never returns: whatever its
    arguments and whatever the network would answer, it raises, and it has
    sent no request and changed nothing by then.  [run_query], whose body
    is empty, gives it [None] in place of a response. *)
Theorem get_images_never_returns env coordinates radius collection show_progress w :
  ∃ e, get_images env coordinates radius collection false show_progress w = (Raise e, w).
Proof.
  destruct (parse_coordinates env coordinates) as [sky|msg] eqn:Hsky.
  - eexists. by apply (get_images_raises env coordinates radius collection
                         show_progress sky).
  - eexists. unfold get_images, bind, _args_to_payload, external.
    cbn [kw_coordinates]. by rewrite Hsky.
Qed.

(** ** The download loop *)

(** X12.  A retrieval that fails with anything but an HTTP error is not
    caught: the exception reaches the caller, the files retrieved before
    it are not returned, nothing is logged and the remaining files are not
    requested. *)
Theorem retrieve_images_other_failure env f urls url msg later show_progress w :
  retrievable env f urls →
  (∀ hist, fetch_fits env hist url = FileOtherError msg) →
  retrieve_images env (urls ++ url :: later) show_progress w
  = (Raise (ExternalError "astropy" msg),
     with_requests w (map RetrieveFile urls ++ [RetrieveFile url])).
Proof.
  intros Hok Hfail. unfold retrieve_images.
  rewrite (retrieve_loop_prefix env f) by done.
  cbn [for_each_mut]. unfold bind at 1. unfold get_fits at 1.
  rewrite Hfail. cbn [record_request]. unfold with_requests.
  cbn [sent caps data_link_url_attr debug_log]. by rewrite <- app_assoc.
Qed.

Lemma retrieve_images_other_failure_witness :
  retrieve_images corrupt_env
    ([archive "1.fits"] ++ archive "2.fits" :: [archive "3.fits"]) true initial_world
  = (Raise (ExternalError "astropy" "Empty or corrupt FITS file"),
     with_requests initial_world
       (map RetrieveFile [archive "1.fits"] ++ [RetrieveFile (archive "2.fits")])).
Proof.
  apply (retrieve_images_other_failure corrupt_env (λ url, "HDU of " +:+ url)
           [archive "1.fits"] (archive "2.fits") "Empty or corrupt FITS file"
           [archive "3.fits"] true initial_world).
  - intros hist u Hu. apply list_elem_of_singleton in Hu as ->. vm_compute. reflexivity.
  - intros hist. vm_compute. reflexivity.
Defined.



(** ** Usage errors of [get_image_list] *)

(** X14.  [get_image_list] tests its arguments in this order: an empty
    query result is refused first, whatever the coordinates; then the
    coordinates are parsed, and their failure is raised even when the
    column is missing; only then is the missing 'caomPublisherID' column
    reported.  In all three cases nothing has been sent. *)
Theorem get_image_list_usage_errors env query_result coordinates radius w :
  query_result_truthy query_result = false ∨
  column query_result "caomPublisherID" = None →
  get_image_list env query_result coordinates radius w
  = (Raise (if query_result_truthy query_result
            then match parse_coordinates env coordinates with
                 | Returned _ => missing_column
                 | Failed msg => ExternalError "astropy" msg
                 end
            else AttributeError "Missing query_result argument"), w).
Proof.
  intros Husage. unfold get_image_list.
  destruct (query_result_truthy query_result); [|done].
  destruct Husage as [?|Hcolumn]; [done|]. cbn [negb]. unfold bind, external.
  destruct (parse_coordinates env coordinates) as [sky|msg]; [|done].
  cbn [ret]. by rewrite Hcolumn.
Qed.

Lemma get_image_list_usage_errors_witness :
  get_image_list Example.env (QueryTable [("publisherID", Example.pids 2)])
    (CoordString "08h45m07.5s +54d18m00s") (RadiusFloat "0.016666666666667")
    initial_world
  = (Raise missing_column, initial_world).
Proof.
  apply (get_image_list_usage_errors Example.env
           (QueryTable [("publisherID", Example.pids 2)])).
  right. reflexivity.
Defined.

(** ** Dictionaries *)

Section DictFacts.
Context {V : Type}.
Implicit Types (d : list (string * V)) (k : string) (v : V).

Lemma dict_get_set d k v k' :
  dict_get (dict_set d k v) k' = if decide (k = k') then Some v else dict_get d k'.
Proof.
  induction d as [|[k0 v0] d IH]; cbn.
  - by destruct (decide (k = k')).
  - destruct (decide (k0 = k)) as [->|Hne]; cbn.
    + by destruct (decide (k = k')).
    + destruct (decide (k0 = k')) as [->|?]; [by rewrite decide_False by done|].
      apply IH.
Qed.

Lemma dict_set_keys d k v k' :
  k' ∈ map fst (dict_set d k v) → k' = k ∨ k' ∈ map fst d.
Proof.
  induction d as [|[k0 v0] d IH]; cbn.
  - intros ?%list_elem_of_singleton. by left.
  - destruct (decide (k0 = k)) as [->|Hne]; cbn.
    + by right.
    + intros [->|Hin]%elem_of_cons; [right; by left|].
      destruct (IH Hin) as [->|?]; [by left|right; by right].
Qed.

Lemma dict_set_NoDup d k v : NoDup (map fst d) → NoDup (map fst (dict_set d k v)).
Proof.
  induction d as [|[k0 v0] d IH]; cbn.
  - intros _. repeat constructor. by intros ?%elem_of_nil.
  - intros [Hnotin Hnd]%NoDup_cons. destruct (decide (k0 = k)) as [->|Hne]; cbn.
    + by constructor.
    + constructor; [|by apply IH].
      intros [->|?]%dict_set_keys; done.
Qed.
End DictFacts.

Lemma values_of_snoc k (params : list (string * string)) name value :
  values_of k (params ++ [(name, value)])
  = values_of k params ++ (if decide (name = k) then [value] else []).
Proof.
  unfold values_of. rewrite omap_app. cbn. by destruct (decide (name = k)).
Qed.

Lemma forwarded_fold (service_params : list (string * string)) :
  let d := fold_left
             (λ d param,
                if bool_decide (param.1 ∈ ["ID"; "RUNID"]) then dict_set d param.1 param.2
                else d)
             service_params [] in
  NoDup (map fst d) ∧
  (∀ k, k ∈ map fst d → k ∈ ["ID"; "RUNID"]) ∧
  (∀ k, k ∈ ["ID"; "RUNID"] → dict_get d k = last (values_of k service_params)).
Proof.
  induction service_params as [|[name value] params IH] using rev_ind; cbn zeta.
  { split; [constructor|]. split; [by intros k ?%elem_of_nil|done]. }
  rewrite fold_left_app. cbn [fold_left fst snd].
  destruct IH as (Hnd & Hkeys & Hget).
  set (d := fold_left _ params []) in *.
  case_bool_decide as Hname.
  - split; [by apply dict_set_NoDup|]. split.
    + intros k [->|?]%dict_set_keys; auto.
    + intros k Hk. rewrite dict_get_set, values_of_snoc.
      destruct (decide (name = k)) as [->|Hne].
      * by rewrite last_snoc.
      * rewrite app_nil_r. by apply Hget.
  - split; [done|]. split; [done|].
    intros k Hk. rewrite values_of_snoc.
    destruct (decide (name = k)) as [->|Hne]; [done|].
    rewrite app_nil_r. by apply Hget.
Qed.

(** ** Cutout URLs *)

(** X15.  For a cutout service whose access URL contains /sync,
    [get_image_list] adds one URL: the access URL followed by a query
    string of distinct parameters, which are the ID and the RUNID of the
    service, each with the last value the service gives it, and POS with
    the circle of the call.  No other parameter of the service is sent.  A
    service whose access URL does not contain /sync adds nothing. *)
Theorem cutout_url_parameters env circle result service_def :
  (Py.contains "/sync" (sd_access_url service_def) = false →
   cutout_url env [("POS", circle)] result service_def = result) ∧
  (Py.contains "/sync" (sd_access_url service_def) = true →
   let params := forwarded_params (sd_input_params service_def) [("POS", circle)] in
   cutout_url env [("POS", circle)] result service_def
   = result ++ [sd_access_url service_def +:+ "?" +:+ urlencode env params] ∧
   NoDup (map fst params) ∧
   (∀ k, k ∈ map fst params → k ∈ ["ID"; "RUNID"; "POS"]) ∧
   dict_get params "POS" = Some circle ∧
   (∀ k, k ∈ ["ID"; "RUNID"] →
         dict_get params k = last (values_of k (sd_input_params service_def)))).
Proof.
  split; intros Hsync; unfold cutout_url; rewrite Hsync; [done|].
  cbn zeta. split; [reflexivity|].
  unfold forwarded_params, dict_update. cbn [fold_left fst snd].
  destruct (forwarded_fold (sd_input_params service_def)) as (Hnd & Hkeys & Hget).
  cbn zeta in *. set (d := fold_left _ (sd_input_params service_def) []) in *.
  split; [by apply dict_set_NoDup|]. split; [|split].
  - intros k [->|Hk]%dict_set_keys; [rewrite !elem_of_cons; auto|].
    apply Hkeys in Hk. apply elem_of_cons in Hk as [->|Hk]; [by left|]. right.
    apply elem_of_cons in Hk as [->|Hk]; [by left|]. by apply elem_of_nil in Hk.
  - rewrite dict_get_set. by rewrite decide_True.
  - intros k Hk. rewrite dict_get_set.
    destruct (decide ("POS" = k)) as [<-|?]; [|by apply Hget].
    apply elem_of_cons in Hk as [?|Hk]; [done|].
    apply elem_of_cons in Hk as [?|Hk]; [done|]. by apply elem_of_nil in Hk.
Qed.

Lemma cutout_url_parameters_witness :
  let params := forwarded_params (sd_input_params Example.cutout_service)
                  [("POS", "CIRCLE 131.28125 54.3 0.1")] in
  cutout_url Example.env [("POS", "CIRCLE 131.28125 54.3 0.1")] []
    Example.cutout_service
  = [] ++ [sd_access_url Example.cutout_service +:+ "?" +:+ urlencode Example.env params] ∧
  NoDup (map fst params) ∧
  (∀ k, k ∈ map fst params → k ∈ ["ID"; "RUNID"; "POS"]) ∧
  dict_get params "POS" = Some "CIRCLE 131.28125 54.3 0.1" ∧
  (∀ k, k ∈ ["ID"; "RUNID"] →
        dict_get params k = last (values_of k (sd_input_params Example.cutout_service))).
Proof.
  apply (cutout_url_parameters Example.env "CIRCLE 131.28125 54.3 0.1" []
           Example.cutout_service).
  vm_compute. reflexivity.
Defined.

Lemma cutout_url_appends env cutout_params result service_def :
  cutout_url env cutout_params result service_def
  = result ++ cutout_url env cutout_params [] service_def.
Proof.
  unfold cutout_url. destruct (Py.contains "/sync" _); [done|]. by rewrite app_nil_r.
Qed.

Lemma cutout_fold_appends env cutout_params records result :
  fold_left (cutout_url env cutout_params) records result
  = result ++ fold_left (cutout_url env cutout_params) records [].
Proof.
  revert result. induction records as [|r records IH]; intros result; cbn [fold_left].
  - by rewrite app_nil_r.
  - rewrite IH, (IH (cutout_url _ _ [] r)), cutout_url_appends. by rewrite app_assoc.
Qed.

Section ImageListResult.
Context (env : Env) (cutout_params : list (string * string)) (base : string).
Context (records_of : string → list service_def).

Lemma get_image_list_loop (batches : list (list string)) (result : list string) w w1 :
  (∀ hist url, datalink env hist url = DalResults (records_of url)) →
  data_link_url env w = (Ok base, w1) →
  (for_each batches
     (λ pid_sublist result,
        let* base := data_link_url env in
        let* datalink :=
          from_result_url env
            (format "{}?{}" [base; urlencode_doseq env [("ID", pid_sublist)]]) in
        ret (fold_left (cutout_url env cutout_params)
                       (bysemantics "#cutout" datalink) result))
     result w).1
  = Ok (result ++
        flat_map (λ ids, cutout_urls env cutout_params (records_of (batch_url env base ids)))
                 batches).
Proof.
  intros Hserved. revert result w w1.
  induction batches as [|ids batches IH]; intros result w w1 Hurl.
  { cbn. by rewrite app_nil_r. }
  cbn [for_each flat_map]. unfold bind at 1. unfold bind at 1. rewrite Hurl.
  unfold bind at 1. unfold from_result_url at 1. rewrite Hserved.
  cbn [record_request ret].
  erewrite IH.
  - rewrite cutout_fold_appends. unfold cutout_urls, batch_url.
    by rewrite <- app_assoc.
  - apply data_link_url_memo. cbn. by apply data_link_url_sets_attr in Hurl.
Qed.
End ImageListResult.

(** X16.  When the coordinates parse, the DataLink URL resolves and every
    DataLink request is answered, [get_image_list] returns the cutout URLs
    of the first batch of 20 IDs, then those of the second, and so on:
    each batch contributes what its own response gives, whatever the other
    batches contributed. *)
Theorem get_image_list_concatenates env columns pids coordinates radius sky base
    records_of w w1 :
  query_result_truthy (QueryTable columns) = true →
  column (QueryTable columns) "caomPublisherID" = Some pids →
  parse_coordinates env coordinates = Returned sky →
  data_link_url env w = (Ok base, w1) →
  (∀ hist url, datalink env hist url = DalResults (records_of url)) →
  (get_image_list env (QueryTable columns) coordinates radius w).1
  = Ok (flat_map
          (λ ids, cutout_urls env [("POS", circle_of sky radius)]
                    (records_of (batch_url env base ids)))
          (chunks pids 20)).
Proof.
  intros Htruthy Hcolumn Hsky Hurl Hserved.
  unfold get_image_list. rewrite Htruthy, Hcolumn. cbn [negb].
  unfold bind at 1. unfold external. rewrite Hsky. cbn [ret].
  by rewrite (get_image_list_loop env _ base records_of _ [] w w1).
Qed.

Lemma get_image_list_concatenates_witness :
  (get_image_list Example.env (QueryTable [("caomPublisherID", Example.pids 45)])
     (CoordString "08h45m07.5s +54d18m00s") (RadiusFloat "0.1") initial_world).1
  = Ok (flat_map
          (λ ids, cutout_urls Example.env
                    [("POS", circle_of {| ra_degree := "131.28125"; dec_degree := "54.3" |}
                               (RadiusFloat "0.1"))]
                    [Example.cutout_service])
          (chunks (Example.pids 45) 20)).
Proof.
  refine (get_image_list_concatenates Example.env
            [("caomPublisherID", Example.pids 45)] (Example.pids 45)
            (CoordString "08h45m07.5s +54d18m00s") (RadiusFloat "0.1")
            {| ra_degree := "131.28125"; dec_degree := "54.3" |}
            Example.links_url (λ _, [Example.cutout_service]) initial_world _
            _ _ _ _ _).
  - vm_compute. reflexivity.
  - vm_compute. reflexivity.
  - reflexivity.
  - vm_compute. reflexivity.
  - intros hist url. reflexivity.
Defined.

(** ** Requests of [get_data_urls] *)

Section DataUrlRequests.
Context (env : Env) (url : string) (include_auxiliaries : bool).
Context (tables : string → list link_row).

Lemma get_data_urls_prefix (done rest : list string) (result : list string) w :
  data_link_url_attr w = Some url →
  links_served env url tables done →
  for_each (done ++ rest)
    (λ pid result,
       let* url := data_link_url env in
       let* response := _request env url pid in
       raise_for_status url response ;;;
       let* tb := external "astropy" (parse_single_table env response.2) in
       ret (append_access_urls include_auxiliaries tb result))
    result w
  = for_each rest
      (λ pid result,
         let* url := data_link_url env in
         let* response := _request env url pid in
         raise_for_status url response ;;;
         let* tb := external "astropy" (parse_single_table env response.2) in
         ret (append_access_urls include_auxiliaries tb result))
      (result ++ flat_map (λ pid, selected_urls include_auxiliaries (tables pid)) done)
      (with_requests w (map (DataLinkGet url) done)).
Proof.
  revert result w. induction done as [|pid done IH]; intros result w Hattr Hserved.
  { cbn [app flat_map map]. by rewrite app_nil_r, with_requests_nil. }
  cbn [app for_each flat_map map]. unfold bind at 1. unfold bind at 1.
  rewrite (data_link_url_memo env url w Hattr).
  unfold bind at 1. unfold _request, requests_get.
  destruct (Hserved (sent w) pid) as (status & text & -> & Hstatus & Htable);
    [by left|].
  cbn [record_request]. unfold bind at 1. unfold raise_for_status. cbn [fst snd].
  rewrite Hstatus. unfold bind at 1. rewrite Htable. cbn [external ret].
  rewrite append_access_urls_selected. rewrite IH.
  - rewrite <- app_assoc. f_equal. unfold with_requests. cbn. by rewrite <- app_assoc.
  - done.
  - intros hist x Hx. apply Hserved. by right.
Qed.
End DataUrlRequests.

(** X17.  [get_data_urls] sends one request per publisher ID, in the order
    of the column and without batching; with the DataLink URL already
    resolved these are its only requests. *)
Theorem get_data_urls_one_request_per_id env columns pids include_auxiliaries url
    tables w :
  query_result_truthy (QueryTable columns) = true →
  column (QueryTable columns) "publisherID" = Some pids →
  data_link_url_attr w = Some url →
  links_served env url tables pids →
  get_data_urls env (QueryTable columns) include_auxiliaries w
  = (Ok (flat_map (λ pid, selected_urls include_auxiliaries (tables pid)) pids),
     with_requests w (map (DataLinkGet url) pids)).
Proof.
  intros Htruthy Hcolumn Hattr Hserved.
  unfold get_data_urls. rewrite Htruthy, Hcolumn. cbn [negb].
  rewrite <- (app_nil_r pids) at 1.
  by rewrite (get_data_urls_prefix env url include_auxiliaries tables pids []).
Qed.

Lemma get_data_urls_one_request_per_id_witness :
  get_data_urls Example.env (QueryTable [("publisherID", Example.pids 3)]) false
    resolved_world
  = (Ok (flat_map (λ _, selected_urls false [Example.primary_row; Example.auxiliary_row])
           (Example.pids 3)),
     with_requests resolved_world (map (DataLinkGet Example.links_url) (Example.pids 3))).
Proof.
  refine (get_data_urls_one_request_per_id Example.env
            [("publisherID", Example.pids 3)] (Example.pids 3) false Example.links_url
            (λ _, [Example.primary_row; Example.auxiliary_row]) resolved_world
            _ _ _ _).
  - vm_compute. reflexivity.
  - vm_compute. reflexivity.
  - reflexivity.
  - intros hist pid _. exists 200, "<capabilities/>". repeat split.
Defined.

(** X18.  When the DataLink service answers a publisher ID with an HTTP
    error status, [get_data_urls] raises at that ID: the URLs gathered for
    the IDs before it are not returned and the IDs after it are not
    requested. *)
Theorem get_data_urls_stops_at_http_error env columns done pid later
    include_auxiliaries url tables status text w :
  query_result_truthy (QueryTable columns) = true →
  column (QueryTable columns) "publisherID" = Some (done ++ pid :: later) →
  data_link_url_attr w = Some url →
  links_served env url tables done →
  (∀ hist, http env hist (link_target env url pid) = HttpReply status text) →
  is_http_error status = true →
  get_data_urls env (QueryTable columns) include_auxiliaries w
  = (Raise (RequestsHTTPError url status),
     with_requests w (map (DataLinkGet url) done ++ [DataLinkGet url pid])).
Proof.
  intros Htruthy Hcolumn Hattr Hserved Hreply Hstatus.
  unfold get_data_urls. rewrite Htruthy, Hcolumn. cbn [negb].
  rewrite (get_data_urls_prefix env url include_auxiliaries tables done) by done.
  cbn [for_each]. unfold bind at 1. unfold bind at 1.
  rewrite (data_link_url_memo env url
             (with_requests w (map (DataLinkGet url) done)) Hattr).
  unfold bind at 1. unfold _request, requests_get.
  fold (link_target env url pid). rewrite Hreply.
  cbn [record_request]. unfold bind at 1. unfold raise_for_status. cbn [fst snd].
  rewrite Hstatus. unfold with_requests. cbn. by rewrite <- app_assoc.
Qed.

Lemma get_data_urls_stops_at_http_error_witness :
  get_data_urls gone_env
    (QueryTable [("publisherID",
                  ["ivo://cadc.nrc.ca/CFHT?A"] ++ "ivo://cadc.nrc.ca/CFHT?B"
                    :: ["ivo://cadc.nrc.ca/CFHT?C"])])
    true resolved_world
  = (Raise (RequestsHTTPError Example.links_url 404),
     with_requests resolved_world
       (map (DataLinkGet Example.links_url) ["ivo://cadc.nrc.ca/CFHT?A"]
          ++ [DataLinkGet Example.links_url "ivo://cadc.nrc.ca/CFHT?B"])).
Proof.
  refine (get_data_urls_stops_at_http_error gone_env _
            ["ivo://cadc.nrc.ca/CFHT?A"] "ivo://cadc.nrc.ca/CFHT?B"
            ["ivo://cadc.nrc.ca/CFHT?C"] true Example.links_url
            (λ _, [Example.primary_row; Example.auxiliary_row]) 404 "Not Found"
            resolved_world _ _ _ _ _ _).
  - vm_compute. reflexivity.
  - vm_compute. reflexivity.
  - reflexivity.
  - intros hist pid Hpid. apply list_elem_of_singleton in Hpid as ->.
    exists 200, "<VOTABLE/>". repeat split.
  - intros hist. vm_compute. reflexivity.
  - reflexivity.
Defined.

(** ** Auxiliary files *)

Lemma selected_urls_sublist tb :
  selected_urls false tb `sublist_of` selected_urls true tb.
Proof.
  unfold selected_urls. induction tb as [|row tb IH]; [done|].
  cbn [List.filter].
  assert (included false row = true → included true row = true) as Hmono.
  { unfold included. by destruct (String.eqb (semantics row) "#this");
      [|rewrite andb_false_r]. }
  destruct (included false row).
  - rewrite Hmono by done. cbn [map]. by apply sublist_skip.
  - destruct (included true row); cbn [map]; [by apply sublist_cons|done].
Qed.

(** X19.  Asking for the auxiliary files only adds URLs: what the rows of
    a response add without them is, in order, part of what they add with
    them; nothing is dropped or moved. *)
Theorem include_auxiliaries_only_adds tb result :
  append_access_urls false tb result `sublist_of` append_access_urls true tb result.
Proof.
  rewrite !append_access_urls_selected.
  apply sublist_app; [done|apply selected_urls_sublist].
Qed.

(** ** Batches of any length *)

(** X20.  For any batch length above zero, [chunks] gives (len + n - 1) / n
    batches; the batch at index i holds the n items from position i * n,
    or what is left of them; every batch before the last has n items
    exactly; and the batches put end to end are the list. *)
Theorem chunks_shape {A} (l : list A) (n : nat) :
  0 < n →
  length (chunks l n) = (length l + n - 1) / n ∧
  (∀ i b, chunks l n !! i = Some b →
          b = take n (drop (i * n) l) ∧
          (S i < length (chunks l n) → length b = n)) ∧
  concat (chunks l n) = l.
Proof.
  intros Hn. split; [|split].
  - unfold chunks, Py.range0. by rewrite !length_map, length_seq.
  - intros i b Hb.
    assert (length (chunks l n) = (length l + n - 1) / n) as Hlen
      by (unfold chunks, Py.range0; by rewrite !length_map, length_seq).
    unfold chunks, Py.range0, Py.slice in Hb.
    rewrite !list_lookup_fmap in Hb.
    destruct (seq 0 ((length l + n - 1) / n) !! i) as [k|] eqn:Hk; [|done].
    apply lookup_seq in Hk as [-> Hi]. cbn in Hb. injection Hb as <-.
    replace (i * n + n - i * n) with n by lia. split; [done|].
    intros Hnext. rewrite length_take, length_drop.
    pose proof (Nat.Div0.mul_div_le (length l + n - 1) n) as Hdiv.
    rewrite Hlen in Hnext. nia.
  - by apply chunks_partition.
Qed.

Lemma chunks_shape_witness :
  length (chunks (Example.pids 7) 3) = (length (Example.pids 7) + 3 - 1) / 3 ∧
  (∀ i b, chunks (Example.pids 7) 3 !! i = Some b →
          b = take 3 (drop (i * 3) (Example.pids 7)) ∧
          (S i < length (chunks (Example.pids 7) 3) → length b = 3)) ∧
  concat (chunks (Example.pids 7) 3) = Example.pids 7.
Proof. apply (chunks_shape (Example.pids 7) 3). lia. Defined.

(** ** The DataLink URL of the client *)

(** X21.  The DataLink URL is resolved once: after an access that
    returned, any later access returns the same URL and leaves the state
    as it is, whatever the registry and the network have become.  An
    access that raised has stored nothing. *)
Theorem data_link_url_resolved_once env w :
  (∀ url w1, data_link_url env w = (Ok url, w1) →
             ∀ env', data_link_url env' w1 = (Ok url, w1)) ∧
  (∀ e, (data_link_url env w).1 = Raise e →
        data_link_url_attr (data_link_url env w).2 = None).
Proof.
  split.
  - intros url w1 Hurl env'. apply data_link_url_memo.
    by apply data_link_url_sets_attr in Hurl.
  - unfold data_link_url, bind, get_data_link_url_attr.
    destruct (data_link_url_attr w) as [url|] eqn:Hattr; [done|].
    destruct (get_access_url_frame env (CADCDATALINK_SERVICE_URI env)
                (Some "ivo://ivoa.net/std/DataLink#links-1.0") w) as (Hsame & _).
    destruct (get_access_url env _ _ w) as [[url|e'] w1]; [done|].
    cbn in *. intros _ _. by rewrite Hsame.
Qed.

Lemma data_link_url_resolved_once_witness :
  data_link_url outage_env (data_link_url Example.env initial_world).2
  = (Ok Example.links_url, (data_link_url Example.env initial_world).2).
Proof.
  apply (proj1 (data_link_url_resolved_once Example.env initial_world)
           Example.links_url).
  vm_compute. reflexivity.
Defined.

(** ** The TAP service of the client *)

Lemma rstrip_all_in chars b :
  PyText.all_in chars b = true → PyText.rstrip chars b = "".
Proof.
  induction b as [|c b IH]; [done|]. cbn [PyText.all_in PyText.rstrip].
  intros [Hc Hb]%andb_true_iff. by rewrite (IH Hb), Hc.
Qed.

Lemma rstrip_app_all_in chars a b :
  PyText.all_in chars b = true → PyText.rstrip chars (a +:+ b) = PyText.rstrip chars a.
Proof.
  intros Hb. induction a as [|c a IH].
  - by apply rstrip_all_in.
  - rewrite string_app_cons. cbn [PyText.rstrip]. by rewrite IH.
Qed.

Lemma rstrip_stops chars a c :
  PyText.mem c chars = false →
  PyText.rstrip chars (a +:+ String c "") = a +:+ String c "".
Proof.
  intros Hc. induction a as [|d a IH].
  - change ("" +:+ String c "") with (String c ""). cbn. by rewrite Hc.
  - rewrite string_app_cons. cbn [PyText.rstrip]. rewrite IH. by destruct a.
Qed.

Lemma rstrip_character_set chars a c b :
  PyText.mem c chars = false → PyText.all_in chars b = true →
  PyText.rstrip chars (a +:+ String c b) = a +:+ String c "".
Proof.
  intros Hc Hb.
  replace (a +:+ String c b) with ((a +:+ String c "") +:+ b)
    by (by rewrite string_app_assoc).
  rewrite rstrip_app_all_in by done. by apply rstrip_stops.
Qed.

(** X22.  A client made with a URL uses that URL as it is for its TAP
    service: the registry is not asked, nothing is sent, and the URL is
    not shortened, also when it ends in 'capabilities'. *)
Theorem cadctap_uses_given_url env url verbose c :
  cadctap_attr c = None →
  (__init__ (Some url) None verbose ;;+ cadctap env) c
  = (Ok url,
     tap_client
       (with_warnings c (if bool_decide (verbose ≠ None)
                         then ["verbose deprecated since version 0.4.0"] else []))
       (process c) url).
Proof.
  intros Hattr. destruct c as [w b t s p e wl]. cbn in Hattr. subst t.
  unfold __init__, cadctap, bindC, get_client, tap_client, with_warnings.
  destruct (bool_decide (verbose ≠ None)); cbn; [done|by rewrite app_nil_r].
Qed.

Lemma cadctap_uses_given_url_witness :
  (__init__ (Some "https://example.org/tap/capabilities") None None ;;+ cadctap client_env)
    initial_client
  = (Ok "https://example.org/tap/capabilities",
     tap_client (with_warnings initial_client []) initial_world
       "https://example.org/tap/capabilities").
Proof.
  apply (cadctap_uses_given_url client_env "https://example.org/tap/capabilities" None
           initial_client).
  reflexivity.
Defined.

(** X23.  A client made without a URL takes the registry's URL of the TAP
    service and removes from its end every character that occurs in the
    word 'capabilities', up to the first character that does not: an
    entry ending in '/capabilities' gives the URL up to and including the
    slash, and so does one ending in '/tables'. *)
Theorem cadctap_strips_character_set env base sep tail c w1 :
  cadctap_attr c = None →
  baseurl c = None →
  get_access_url (net env) (CADCTAP_SERVICE_URI env) None (process c)
  = (Ok (base +:+ String sep tail), w1) →
  PyText.mem sep "capabilities" = false →
  PyText.all_in "capabilities" tail = true →
  cadctap env c = (Ok (base +:+ String sep ""), tap_client c w1 (base +:+ String sep "")).
Proof.
  intros Hattr Hbase Hget Hsep Htail.
  unfold cadctap, bindC, get_client. rewrite Hattr, Hbase.
  unfold in_process. rewrite Hget.
  cbn [set_baseurl set_cadctap_attr retC process baseurl cadctap_attr session posted
       error_log warnings_log].
  by rewrite (rstrip_character_set "capabilities" base sep tail Hsep Htail).
Qed.

Lemma cadctap_strips_character_set_witness :
  (cadctap client_env initial_client).1
  = Ok ("https://ws.cadc-ccda.hia-iha.nrc-cnrc.gc.ca/tap" +:+ String "/" "").
Proof.
  pose proof (cadctap_strips_character_set client_env
                "https://ws.cadc-ccda.hia-iha.nrc-cnrc.gc.ca/tap" "/" "capabilities"
                initial_client
                (get_access_url (net client_env) (CADCTAP_SERVICE_URI client_env) None
                   initial_world).2) as H.
  rewrite H; [reflexivity|reflexivity|reflexivity|vm_compute; reflexivity
             |reflexivity|reflexivity].
Defined.

(** X24.  Once the TAP service is set up, every later access gives the
    same service and changes nothing, whatever the registry has become;
    an access that failed to reach the registry has set up nothing, so
    that the next access asks again. *)
Theorem cadctap_set_up_once env c :
  (∀ url c1, cadctap env c = (Ok url, c1) →
             ∀ env', cadctap env' c1 = (Ok url, c1)) ∧
  (∀ e, (cadctap env c).1 = Raise e →
        cadctap_attr c = None ∧
        cadctap_attr (cadctap env c).2 = None ∧
        baseurl (cadctap env c).2 = None).
Proof.
  unfold cadctap, bindC, get_client.
  destruct (cadctap_attr c) as [service|] eqn:Hattr.
  { split.
    - intros url c1 [= <- <-] env'. by rewrite Hattr.
    - done. }
  destruct (baseurl c) as [url0|] eqn:Hbase.
  { split; [|done]. by intros url c1 [= <- <-] env'. }
  unfold in_process.
  destruct (get_access_url (net env) (CADCTAP_SERVICE_URI env) None (process c))
    as [[url0|e0] w1].
  - split; [|done]. by intros url c1 [= <- <-] env'.
  - split; [done|]. intros e _. by cbn.
Qed.

Lemma cadctap_set_up_once_witness :
  cadctap client_env (cadctap client_env initial_client).2
  = (Ok "https://ws.cadc-ccda.hia-iha.nrc-cnrc.gc.ca/tap/",
     (cadctap client_env initial_client).2).
Proof.
  apply (proj1 (cadctap_set_up_once client_env initial_client)).
  vm_compute. reflexivity.
Defined.

(** ** Logging in and out *)

(** X25.  Without a certificate file, [login] refuses a missing or empty
    user name or password with an AttributeError before it asks the
    registry or the login service for anything; the session is untouched. *)
Theorem login_missing_credentials env user password certificate_file c :
  Py.truthy_opt certificate_file = false →
  Py.truthy_opt user = false ∨ Py.truthy_opt password = false →
  login env user password certificate_file c
  = (Raise (AttributeError "login credentials missing (user/password or certificate)"),
     c).
Proof.
  intros Hcert Hmissing. unfold login. rewrite Hcert.
  by destruct Hmissing as [-> | ->]; rewrite ?orb_true_r.
Qed.

Lemma login_missing_credentials_witness :
  login client_env (Some "alice") (Some "") None initial_client
  = (Raise (AttributeError "login credentials missing (user/password or certificate)"),
     initial_client).
Proof.
  apply (login_missing_credentials client_env (Some "alice") (Some "") None
           initial_client).
  - reflexivity.
  - right. reflexivity.
Defined.

(** X26.  With a certificate file, [login] starts a new session that holds
    the certificate and no cookie, so a cookie of an earlier login is
    lost; the user name and the password are ignored and nothing is
    sent. *)
Theorem login_certificate_new_session env user password certificate_file c :
  Py.truthy_opt certificate_file = true →
  login env user password certificate_file c
  = (Ok (), with_session c {| cert := certificate_file; cookies := [] |}).
Proof. intros Hcert. unfold login. by rewrite Hcert. Qed.

Lemma login_certificate_new_session_witness :
  login client_env (Some "alice") None (Some "/home/alice/cadcproxy.pem")
    (with_session initial_client
       {| cert := None; cookies := [("CADC_SSO", "old")] |})
  = (Ok (), with_session initial_client
              {| cert := Some "/home/alice/cadcproxy.pem"; cookies := [] |}).
Proof.
  apply (login_certificate_new_session client_env (Some "alice") None
           (Some "/home/alice/cadcproxy.pem")
           (with_session initial_client
              {| cert := None; cookies := [("CADC_SSO", "old")] |})).
  reflexivity.
Defined.

Lemma format_quoted text :
  format (dquote +:+ "{}" +:+ dquote) [text] = dquote +:+ text +:+ dquote.
Proof. reflexivity. Qed.

Section PasswordLogin.
Context (env : ClientEnv) (user password : string) (certificate_file : option string).
Context (c : Client) (login_url : string) (w1 : World).
Context (Hcert : Py.truthy_opt certificate_file = false).
Context (Huser : Py.truthy user = true) (Hpassword : Py.truthy password = true).
Context (Hlocated :
  get_access_url (net env) (CADCLOGIN_SERVICE_URI env) (Some login_capability)
    (process c) = (Ok login_url, w1)).

Lemma login_posts :
  login env (Some user) (Some password) certificate_file c
  = match requests_post env (sent w1) (posted c) (login_request login_url user password) with
    | HttpReply status text =>
        if is_http_error status then
          (Raise (RequestsHTTPError login_url status),
           with_error (after_post c w1 (login_request login_url user password))
             (format "Logging error: {}" [str_exn (RequestsHTTPError login_url status)]))
        else
          (Ok (),
           with_session (after_post c w1 (login_request login_url user password))
             {| cert := cert (session c);
                cookies := dict_set (cookies (session c)) CADC_COOKIE_PREFIX
                             (dquote +:+ text +:+ dquote) |})
    | HttpNoReply msg =>
        (Raise (ConnectionError msg),
         after_post c w1 (login_request login_url user password))
    end.
Proof.
  unfold login. rewrite Hcert. cbn [Py.truthy_opt]. rewrite Huser, Hpassword.
  cbn [negb orb]. unfold bindC at 1. unfold in_process at 1.
  fold login_capability. rewrite Hlocated.
  unfold bindC at 1. unfold post, record_post.
  cbn [format_opt process posted].
  fold (login_request login_url user password).
  destruct (requests_post env (sent w1) (posted c) (login_request login_url user password))
    as [status text|msg]; [|done].
  unfold bindC at 1. unfold in_process, raise_for_status. cbn [fst snd process].
  destruct (is_http_error status); [done|].
  cbn [ret]. unfold bindC, get_client, set_session. cbn [session]. by rewrite format_quoted.
Qed.
End PasswordLogin.

(** X27.  A login by user name and password posts both, once, to the
    login URL of the registry; when the service accepts them, the session
    gets the cookie CADC_SSO, whose value is the text of the response
    between double quotes, and keeps its certificate and its other
    cookies. *)
Theorem login_sets_cookie env user password certificate_file c login_url w1 status text :
  Py.truthy_opt certificate_file = false →
  Py.truthy user = true → Py.truthy password = true →
  get_access_url (net env) (CADCLOGIN_SERVICE_URI env) (Some login_capability)
    (process c) = (Ok login_url, w1) →
  requests_post env (sent w1) (posted c) (login_request login_url user password)
  = HttpReply status text →
  is_http_error status = false →
  ∃ c1,
    login env (Some user) (Some password) certificate_file c = (Ok (), c1) ∧
    posted c1 = posted c ++ [login_request login_url user password] ∧
    cert (session c1) = cert (session c) ∧
    ∀ name,
      dict_get (cookies (session c1)) name
      = if decide (CADC_COOKIE_PREFIX = name) then Some (dquote +:+ text +:+ dquote)
        else dict_get (cookies (session c)) name.
Proof.
  intros Hcert Huser Hpassword Hlocated Hreply Hstatus.
  rewrite (login_posts env user password certificate_file c login_url w1)
    by done.
  rewrite Hreply, Hstatus. eexists. split; [reflexivity|].
  split; [done|]. split; [done|]. intros name. cbn [session with_session cookies].
  apply dict_get_set.
Qed.

Lemma login_sets_cookie_witness :
  ∃ c1,
    login client_env (Some "alice") (Some "secret") None initial_client = (Ok (), c1) ∧
    posted c1 = [login_request login_service_url "alice" "secret"] ∧
    cert (session c1) = None ∧
    ∀ name,
      dict_get (cookies (session c1)) name
      = if decide (CADC_COOKIE_PREFIX = name)
        then Some (dquote +:+ "token-of-alice" +:+ dquote)
        else None.
Proof.
  apply (login_sets_cookie client_env "alice" "secret" None initial_client
           login_service_url
           (get_access_url (net client_env) (CADCLOGIN_SERVICE_URI client_env)
              (Some login_capability) initial_world).2 200 "token-of-alice").
  - reflexivity.
  - reflexivity.
  - reflexivity.
  - vm_compute. reflexivity.
  - vm_compute. reflexivity.
  - reflexivity.
Defined.

(** X28.  When the login service answers with an HTTP error status,
    [login] logs one message 'Logging error: ...' and raises the error;
    the session gets no cookie and stays as it was, while the post
    remains sent. *)
Theorem login_rejected env user password certificate_file c login_url w1 status text :
  Py.truthy_opt certificate_file = false →
  Py.truthy user = true → Py.truthy password = true →
  get_access_url (net env) (CADCLOGIN_SERVICE_URI env) (Some login_capability)
    (process c) = (Ok login_url, w1) →
  requests_post env (sent w1) (posted c) (login_request login_url user password)
  = HttpReply status text →
  is_http_error status = true →
  ∃ c1,
    login env (Some user) (Some password) certificate_file c
    = (Raise (RequestsHTTPError login_url status), c1) ∧
    session c1 = session c ∧
    posted c1 = posted c ++ [login_request login_url user password] ∧
    error_log c1
    = error_log c
      ++ [format "Logging error: {}" [str_exn (RequestsHTTPError login_url status)]].
Proof.
  intros Hcert Huser Hpassword Hlocated Hreply Hstatus.
  rewrite (login_posts env user password certificate_file c login_url w1)
    by done.
  rewrite Hreply, Hstatus. eexists. split; [reflexivity|]. done.
Qed.

Lemma login_rejected_witness :
  ∃ c1,
    login client_env (Some "alice") (Some "guess") None initial_client
    = (Raise (RequestsHTTPError login_service_url 401), c1) ∧
    session c1 = new_session ∧
    posted c1 = [login_request login_service_url "alice" "guess"] ∧
    error_log c1
    = [format "Logging error: {}" [str_exn (RequestsHTTPError login_service_url 401)]].
Proof.
  apply (login_rejected client_env "alice" "guess" None initial_client
           login_service_url
           (get_access_url (net client_env) (CADCLOGIN_SERVICE_URI client_env)
              (Some login_capability) initial_world).2 401 "Unauthorized").
  - reflexivity.
  - reflexivity.
  - reflexivity.
  - vm_compute. reflexivity.
  - vm_compute. reflexivity.
  - reflexivity.
Defined.

(** X29.  Logging out undoes a login: after a login that returned, with a
    certificate or with a password, [logout] leaves a session with no
    certificate and no cookie; it sends nothing and never fails. *)
Theorem logout_undoes_login env user password certificate_file verbose c c1 :
  login env user password certificate_file c = (Ok (), c1) →
  (login env user password certificate_file ;;+ logout verbose) c
  = (Ok (),
     with_session
       (with_warnings c1 (if bool_decide (verbose ≠ None)
                          then ["verbose deprecated since 0.4.0"] else []))
       new_session).
Proof.
  intros Hlogin. unfold bindC at 1. rewrite Hlogin.
  destruct c1 as [w b t s p e wl].
  unfold logout, bindC, with_session, with_warnings.
  destruct (bool_decide (verbose ≠ None)); cbn; [done|by rewrite app_nil_r].
Qed.

Lemma logout_undoes_login_witness :
  (login client_env None None (Some "/home/alice/cadcproxy.pem") ;;+ logout None)
    initial_client
  = (Ok (), with_session (with_warnings initial_client []) new_session).
Proof.
  apply (logout_undoes_login client_env None None (Some "/home/alice/cadcproxy.pem")
           None initial_client
           (with_session initial_client
              {| cert := Some "/home/alice/cadcproxy.pem"; cookies := [] |})).
  reflexivity.
Defined.

(** ** Collections *)

Lemma bands_of_snoc k rows row :
  bands_of k (rows ++ [row])
  = bands_of k rows
    ++ (if decide (row_collection row = k)
        then match row_energy_emBand row with Some band => [band] | None => [] end
        else []).
Proof.
  unfold bands_of. rewrite omap_app. cbn.
  destruct (decide (row_collection row = k)); [|done].
  by destruct (row_energy_emBand row).
Qed.

Lemma bands_of_absent k rows :
  k ∉ map row_collection rows → bands_of k rows = [].
Proof.
  unfold bands_of. induction rows as [|r rows IH]; [done|]. simpl.
  intros Hnew. destruct (decide (row_collection r = k)) as [Heq|?].
  - exfalso. apply Hnew. rewrite Heq. by left.
  - apply IH. intros ?. apply Hnew. by right.
Qed.

(** X30.  [get_collections] gives every collection of the response one
    entry and no entry to anything else; its description names the
    collection, and its bands are the bands of the rows of that
    collection, in the order of the rows, the masked ones left out. *)
Theorem get_collections_groups_bands (response : list enum_row) :
  NoDup (map fst (collect_collections response)) ∧
  ∀ k, dict_get (collect_collections response) k
       = if decide (k ∈ map row_collection response)
         then Some {| Description := format "The {} collection at the CADC" [k];
                      Bands := bands_of k response |}
         else None.
Proof.
  unfold collect_collections.
  induction response as [|row rows [IHnd IHget]] using rev_ind.
  { split; [constructor|]. intros k. cbn. rewrite decide_False; [done|].
    by intros ?%elem_of_nil. }
  rewrite fold_left_app. cbn [fold_left].
  set (d := fold_left collections_step rows []) in *. unfold collections_step.
  pose proof (IHget (row_collection row)) as Hrow.
  split.
  - destruct (dict_get d (row_collection row)) as [found|];
      destruct (row_energy_emBand row); try done; by apply dict_set_NoDup.
  - intros k. rewrite map_app, bands_of_snoc. cbn [map].
    destruct (decide (k ∈ map row_collection rows ++ [row_collection row]))
      as [Hin|Hnotin].
    + destruct (decide (row_collection row = k)) as [<-|Hne].
      * destruct (decide (row_collection row ∈ map row_collection rows)) as [Hold|Hnew].
        -- rewrite Hrow. destruct (row_energy_emBand row) as [band|].
           ++ rewrite dict_get_set. by rewrite decide_True by done.
           ++ rewrite IHget. rewrite decide_True by done. by rewrite app_nil_r.
        -- rewrite Hrow. rewrite dict_get_set. rewrite decide_True by done.
           rewrite (bands_of_absent _ _ Hnew). by destruct (row_energy_emBand row).
      * assert (k ∈ map row_collection rows) as Hold.
        { apply elem_of_app in Hin as [?|Hin]; [done|].
          apply list_elem_of_singleton in Hin. congruence. }
        rewrite app_nil_r.
        assert (dict_get d k
                = Some {| Description := format "The {} collection at the CADC" [k];
                          Bands := bands_of k rows |}) as Hk.
        { rewrite IHget. by rewrite decide_True by done. }
        destruct (dict_get d (row_collection row)) as [found|];
          destruct (row_energy_emBand row); try done;
          rewrite dict_get_set; by rewrite decide_False by done.
    + assert (row_collection row ≠ k) as Hne.
      { intros <-. apply Hnotin. apply elem_of_app. right. by left. }
      assert (dict_get d k = None) as Hk.
      { rewrite IHget. rewrite decide_False; [done|].
        intros ?. apply Hnotin. apply elem_of_app. by left. }
      destruct (dict_get d (row_collection row)) as [found|];
        destruct (row_energy_emBand row); try done;
        rewrite dict_get_set; by rewrite decide_False by done.
Qed.
